(** * tatorte-classifier: the data importer and the training pipeline

    A shallow embedding of
      - [src/production_api/app/import_data.py]  (module [ImportData]) and
      - [src/tatorte_classifier/machine_learning/train_model.py]
        (module [TrainModel]),
    over a small model of the Python and NumPy operations they use
    (module [Py]).

    NumPy arrays of rank one are lists, Python integers are [Z], indices
    produced by [np.where] are [nat].  Exceptions are values of [exn] carried
    by [result]. *)

From Stdlib Require Import String Ascii.
From Stdlib Require Import QArith.
From Stdlib Require Import List ZArith Lia Bool Arith Permutation Sorted.
Import ListNotations.

Set Implicit Arguments.

(* ================================================================== *)
(** * Python and NumPy primitives                                       *)
(* ================================================================== *)

Module Py.

(** The exceptions the two files can meet. *)
Inductive exn : Type :=
| ValueError
| IndexError
| AttributeError
| UnicodeDecodeError
| OSError
| PicklingError.

(** The outcome of evaluating an expression: a value, or a raised exception. *)
Inductive result (A : Type) : Type :=
| Ok (a : A)
| Raise (e : exn).

Arguments Ok {A} a.
Arguments Raise {A} e.

Definition bind {A B : Type} (r : result A) (k : A -> result B) : result B :=
  match r with
  | Ok a => k a
  | Raise e => Raise e
  end.

(** [try: r  except: h] with a bare [except], which catches everything. *)
Definition try_except {A : Type} (r : result A) (handler : exn -> result A)
  : result A :=
  match r with
  | Ok a => Ok a
  | Raise e => handler e
  end.

(** Stateful code: a state [S] threaded through, kept when an exception
    passes. *)
Definition M (S A : Type) : Type := S -> result A * S.

Definition ret {S A : Type} (a : A) : M S A := fun s => (Ok a, s).

Definition bindM {S A B : Type} (m : M S A) (k : A -> M S B) : M S B :=
  fun s =>
    match m s with
    | (Ok a, s') => k a s'
    | (Raise e, s') => (Raise e, s')
    end.

(** A pure, possibly raising, expression evaluated inside stateful code. *)
Definition lift {S A : Type} (r : result A) : M S A := fun s => (r, s).

(** ** Slices and ranges *)

(** An index of a slice brought into [0 .. len]: negative ones count from
    the end, all are clamped. *)
Definition slice_index (len i : Z) : Z :=
  if (i <? 0)%Z then Z.max 0 (i + len) else Z.min i len.

(** [l[start:stop]]; [None] is an omitted bound. *)
Definition py_slice {A : Type} (l : list A) (start stop : option Z) : list A :=
  let len := Z.of_nat (length l) in
  let a := match start with Some i => slice_index len i | None => 0%Z end in
  let b := match stop with Some i => slice_index len i | None => len end in
  firstn (Z.to_nat (b - a)) (skipn (Z.to_nat a) l).

(** [range(a, b)]. *)
Definition py_range (a b : Z) : list Z :=
  map (fun i => (a + Z.of_nat i)%Z) (seq 0 (Z.to_nat (b - a))).

(** [kw in s] on strings: [kw] occurs in [s] as a substring. *)
Fixpoint py_in (kw s : string) : bool :=
  String.prefix kw s ||
  match s with
  | EmptyString => false
  | String _ s' => py_in kw s'
  end.

(** ** NumPy *)

(** [np.vectorize(f)(a)].  With no [otypes] given, NumPy calls [f] on the
    first element to find the output type, and refuses an array of size 0
    with a [ValueError]. *)
Definition np_vectorize {A B : Type} (f : A -> B) (a : list A)
  : result (list B) :=
  match a with
  | [] => Raise ValueError
  | _ :: _ => Ok (map f a)
  end.

(** [np.where(mask)[0]]: the positions at which [mask] is true, ascending. *)
Fixpoint where_from (pos : nat) (mask : list bool) : list nat :=
  match mask with
  | [] => []
  | b :: mask' =>
      if b then pos :: where_from (S pos) mask' else where_from (S pos) mask'
  end.

Definition np_where (mask : list bool) : list nat := where_from 0 mask.

(** Sorting without repetition, as [np.unique] and [np.intersect1d] do. *)
Section SortUnique.
Context {A : Type} (ltb eqb : A -> A -> bool).

Fixpoint insert_unique (v : A) (l : list A) : list A :=
  match l with
  | [] => [v]
  | h :: t =>
      if ltb v h then v :: l
      else if eqb v h then l
      else h :: insert_unique v t
  end.

Definition sort_unique (l : list A) : list A := fold_right insert_unique [] l.
End SortUnique.

(** [np.unique(y)] on an array of integers. *)
Definition np_unique (y : list Z) : list Z := sort_unique Z.ltb Z.eqb y.

Definition mem (j : nat) (idxs : list nat) : bool := existsb (Nat.eqb j) idxs.

(** [np.intersect1d(a, b)] on index arrays: the sorted, unique common values. *)
Definition np_intersect1d (a b : list nat) : list nat :=
  filter (fun j => mem j b) (sort_unique Nat.ltb Nat.eqb a).

(** [arr[mask]]: the elements at which the boolean mask is true. *)
Fixpoint compress {A : Type} (mask : list bool) (arr : list A) : list A :=
  match mask, arr with
  | b :: mask', v :: arr' =>
      if b then v :: compress mask' arr' else compress mask' arr'
  | _, _ => []
  end.

(** A mask that keeps what a mask keeps of what another one keeps. *)
Fixpoint compose_mask (m1 m2 : list bool) : list bool :=
  match m1 with
  | [] => []
  | false :: m1' => false :: compose_mask m1' m2
  | true :: m1' =>
      match m2 with
      | [] => false :: compose_mask m1' []
      | b :: m2' => b :: compose_mask m1' m2'
      end
  end.

Definition in_bounds (len : nat) (idxs : list nat) : bool :=
  forallb (fun j => j <? len) idxs.

(** [np.delete(arr, idxs)] for an array of non-negative indices: a copy of
    [arr] without the elements at those positions; an index out of bounds
    is an [IndexError]. *)
Definition np_delete {A : Type} (arr : list A) (idxs : list nat)
  : result (list A) :=
  if in_bounds (length arr) idxs
  then Ok (compress (map (fun j => negb (mem j idxs)) (seq 0 (length arr))) arr)
  else Raise IndexError.

(** [arr[idxs] = v] for an array of non-negative indices; the array after
    the assignment. *)
Fixpoint assign_from {A : Type} (pos : nat) (arr : list A) (idxs : list nat)
  (v : A) : list A :=
  match arr with
  | [] => []
  | a :: arr' =>
      (if mem pos idxs then v else a) :: assign_from (S pos) arr' idxs v
  end.

Definition np_setitem {A : Type} (arr : list A) (idxs : list nat) (v : A)
  : result (list A) :=
  if in_bounds (length arr) idxs
  then Ok (assign_from 0 arr idxs v)
  else Raise IndexError.

End Py.

Import Py.

Declare Scope py_scope.
Delimit Scope py_scope with py.
Notation "x <- c ;; k" := (bind c (fun x => k))
  (at level 61, c at next level, right associativity) : py_scope.
Notation "' pat <- c ;; k" := (bind c (fun x => match x with pat => k end))
  (at level 61, pat pattern, c at next level, right associativity) : py_scope.
Notation "x <~ c ;; k" := (bindM c (fun x => k))
  (at level 61, c at next level, right associativity) : py_scope.
Notation "' pat <~ c ;; k" := (bindM c (fun x => match x with pat => k end))
  (at level 61, pat pattern, c at next level, right associativity) : py_scope.
Notation "c ;;; k" := (bindM c (fun _ => k))
  (at level 61, right associativity) : py_scope.
Local Open Scope py_scope.

(* ================================================================== *)
(** * The data importer: [production_api/app/import_data.py]            *)
(* ================================================================== *)

Module ImportData.

(** A value held by the text array: a byte string, a text, or a value of
    another kind (a number). *)
Inductive value : Type :=
| Bytes (b : list Byte.byte)
| Str (s : string)
| Number (z : Z).

(** A record of the document store, as the importer builds it. *)
Record document : Type := {
  data : value;
  categories : list Z;
  time_created : string;
  time_modified : string
}.

(** What the run does that can be observed: lines printed and bulk inserts
    issued to the collection. *)
Inductive event : Type :=
| Print (n : Z)
| InsertMany (docs : list document).

Definition insert_calls (out : list event) : list (list document) :=
  flat_map (fun e => match e with InsertMany d => [d] | Print _ => [] end) out.

Definition printed (out : list event) : list Z :=
  flat_map (fun e => match e with Print n => [n] | InsertMany _ => [] end) out.

Section Importer.

(** Python's UTF-8 codec, [bytes.decode("utf-8")]: the text, or no text
    when the bytes are not valid UTF-8. *)
Variable utf8_decode : list Byte.byte -> option string.

(** The labels are the elements of a numeric array; [int(y)] is their
    integer value. *)
Variable num : Type.
Variable py_int : num -> Z.

(** [x.decode("utf-8")]: only byte strings have the method. *)
Definition decode (x : value) : result value :=
  match x with
  | Bytes b =>
      match utf8_decode b with
      | Some s => Ok (Str s)
      | None => Raise UnicodeDecodeError
      end
  | Str _ => Raise AttributeError
  | Number _ => Raise AttributeError
  end.

(** Lines 13-17. *)
Definition convert_to_string (x : value) : result value :=
  try_except (decode x) (fun _ => Ok x).

(** Lines 26-29: the list comprehension over [zip(X, Y)]. *)
Definition build_documents (current_date : string) (X : list value)
  (Y : list num) : list document :=
  map (fun xy : value * num =>
         let (x, y) := xy in
         {| data := x;
            categories := [py_int y];
            time_created := current_date;
            time_modified := current_date |})
      (combine X Y).

(** Lines 32-33: one round of the loop, [out] being what was printed and
    inserted so far. *)
Definition loop_body (data : list document) (out : list event) (i : Z)
  : list event :=
  out ++ [Print i;
          InsertMany (py_slice data (Some ((i - 1) * 1000)%Z)
                                    (Some (i * 1000)%Z))].

(** Lines 30-33. *)
Definition import_loop (data : list document) : list event :=
  fold_left (loop_body data)
            (py_range 1 (Z.of_nat (length data) / 1000 + 2))
            [Print (Z.of_nat (length data))].

(** Lines 24-33, for the arrays read at lines 20-22 and the time read at
    line 24. *)
Definition import_data (current_date : string) (X : list value)
  (Y : list num) : list event :=
  import_loop (build_documents current_date X Y).

End Importer.

(** A decoder for the 7-bit subset of UTF-8, on which UTF-8 is ASCII;
    it serves to run the importer on concrete input. *)
Definition decode_7bit (b : list Byte.byte) : option string :=
  if forallb (fun c => (Byte.to_N c <? 128)%N) b
  then Some (string_of_list_byte b)
  else None.

End ImportData.

(* ================================================================== *)
(** * The training pipeline: [machine_learning/train_model.py]          *)
(* ================================================================== *)

Module TrainModel.

(** [os.path.join(a, b)] on POSIX paths. *)
Definition ends_with_slash (a : string) : bool :=
  match rev (list_ascii_of_string a) with
  | c :: _ => Ascii.eqb c "/"%char
  | [] => false
  end.

Definition os_path_join (a b : string) : string :=
  match b with
  | String "/"%char _ => b
  | _ =>
      if (String.length a =? 0)%nat || ends_with_slash a
      then (a ++ b)%string
      else (a ++ "/" ++ b)%string
  end.

Section Pipeline.

(** [str.lower] of Python. *)
Variable lower : string -> string.

(** The callable [DataPreprocessor()] of [preprocess_data.py], which is
    not among the files at hand: one raw text to one cleaned text. *)
Variable DataPreprocessor : string -> string.

(** Lines 17-21.  [condition] is a vectorised predicate over the texts.
    The assignment writes into the caller's array; the array returned is
    that same, updated, array. *)
Definition _change_category (x : list string) (y : list Z)
  (old_category new_category : Z)
  (condition : list string -> result (list bool)) : result (list Z) :=
  c <- condition x ;;
  np_setitem y
    (np_intersect1d (np_where c)
                    (np_where (map (fun l => (l =? old_category)%Z) y)))
    new_category.

(** Lines 24-47; [category] is [None] when the argument is left out. *)
Definition _drop_all_containing_keyword (x : list string) (y : list Z)
  (keyword : string) (category : option Z)
  : result (list string * list Z) :=
  let str_contain := np_vectorize (fun t => py_in keyword (lower t)) in
  c <- str_contain x ;;
  let idxs := np_where c in
  let idxs :=
    match category with
    | Some cat =>
        np_intersect1d idxs (np_where (map (fun l => (l =? cat)%Z) y))
    | None => idxs
    end in
  y' <- np_delete y idxs ;;
  x' <- np_delete x idxs ;;
  Ok (x', y').

(** Lines 50-83. *)
Definition clean_data (x : list string) (y : list Z)
  : result (list string * list Z) :=
  let str_contain :=
    np_vectorize (fun t => py_in "verkehrskontroll" (lower t)) in
  y <- _change_category x y 5 4 str_contain ;;
  let str_contain := np_vectorize (fun t => py_in "eingebroch" (lower t)) in
  y <- _change_category x y 4 3 str_contain ;;
  ' (x, y) <- _drop_all_containing_keyword x y "alkohol" None ;;
  ' (x, y) <- _drop_all_containing_keyword x y "dienstagmorg" (Some 3%Z) ;;
  ' (x, y) <- _drop_all_containing_keyword x y "fahrrad" (Some 3%Z) ;;
  let preprocessor := np_vectorize DataPreprocessor in
  x <- preprocessor x ;;
  Ok (x, y).

(** The state of NumPy's global random generator, and
    [np.random.shuffle] as a function of it. *)
Variable gen : Type.
Variable shuffle : list nat -> gen -> list nat * gen.

Definition np_random_shuffle (idxs : list nat) : M gen (list nat) :=
  fun g => let (idxs', g') := shuffle idxs g in (Ok idxs', g').

(** Lines 98-103: the loop over the categories [np.unique(y)] found
    before the loop starts. *)
Fixpoint balance_loop (cats : list Z) (x : list string) (y : list Z)
  (n_per_class : Z) : M gen (list string * list Z) :=
  match cats with
  | [] => ret (x, y)
  | i :: cats' =>
      let idxs := np_where (map (fun l => (l =? i)%Z) y) in
      idxs <~ np_random_shuffle idxs ;;
      let idxs :=
        py_slice idxs None (Some (Z.of_nat (length idxs) - n_per_class)%Z) in
      x <~ lift (np_delete x idxs) ;;
      y <~ lift (np_delete y idxs) ;;
      balance_loop cats' x y n_per_class
  end.

(** Lines 86-104. *)
Definition balance_data (x : list string) (y : list Z) (n_per_class : Z)
  : M gen (list string * list Z) :=
  balance_loop (np_unique y) x y n_per_class.

(** The collaborators of the pipeline: the [Model] class of [model.py]
    (constructor, [pipeline] attribute, call), the fit of its pipeline,
    and scikit-learn's metrics and split.  Fitting and splitting may draw
    from the random generator. *)
Variables clf_t params pipeline model accuracy matrix : Type.
Variable Model : clf_t -> params -> params -> result model.
Variable get_pipeline : model -> pipeline.
Variable set_pipeline : model -> pipeline -> model.
Variable pipeline_fit : pipeline -> list string -> list Z -> M gen pipeline.
Variable call : model -> list string -> result (list Z).
Variable accuracy_score : list Z -> list Z -> result accuracy.
Variable confusion_matrix : list Z -> list Z -> result matrix.
Variable train_test_split :
  list string -> list Z -> Q ->
  M gen (list string * list string * list Z * list Z).

(** [configuration.MODEL_DIR]. *)
Variable MODEL_DIR : string.

(** [open(path, "wb")] in the file system of the run: [Ok tt] when the
    file can be created or truncated, the exception raised otherwise (a
    missing directory, no permission: an [OSError]).  Pickling an object
    with [dill]: [Ok tt], or the exception raised for an object that cannot
    be pickled. *)
Variable open_wb : string -> result unit.
Variable dill_pickles : model -> result unit.

(** What the pipeline acts on besides its arguments: the random generator,
    the records handed to the logger, the standard output and the files
    written, each with the object dumped into it, or with [None] when the
    file was opened and the dump did not complete. *)
Record world : Type := {
  rng : gen;
  logged : list string;
  stdout : list string;
  files : list (string * option model)
}.

Definition with_gen {A : Type} (m : M gen A) : M world A :=
  fun w =>
    let (r, g) := m (rng w) in
    (r, {| rng := g; logged := logged w; stdout := stdout w;
           files := files w |}).

Definition logger_info (msg : string) : M world unit :=
  fun w =>
    (Ok tt, {| rng := rng w; logged := logged w ++ [msg];
               stdout := stdout w; files := files w |}).

Definition print (line : string) : M world unit :=
  fun w =>
    (Ok tt, {| rng := rng w; logged := logged w;
               stdout := stdout w ++ [line]; files := files w |}).

(** The world in which the file at [path] has been created or truncated
    and holds [content]. *)
Definition write_file (path : string) (content : option model) (w : world)
  : world :=
  {| rng := rng w; logged := logged w; stdout := stdout w;
     files := (path, content)
              :: filter (fun f => negb (String.eqb (fst f) path))
                        (files w) |}.

(** [dill.dump(obj, open(path, "wb"))].  The file is opened first: when
    that raises, no file is touched.  Opening truncates the file, so when
    the pickling raises, what the file held before is gone. *)
Definition dill_dump (obj : model) (path : string) : M world unit :=
  fun w =>
    match open_wb path with
    | Raise e => (Raise e, w)
    | Ok _ =>
        match dill_pickles obj with
        | Raise e => (Raise e, write_file path None w)
        | Ok _ => (Ok tt, write_file path (Some obj) w)
        end
    end.

(** Lines 107-109. *)
Definition create_model (clf : clf_t) (clf_params vect_params : params)
  : result model :=
  Model clf clf_params vect_params.

(** Lines 112-114. *)
Definition _train_model (x_train : list string) (y_train : list Z)
  (m : model) : M gen model :=
  p <~ pipeline_fit (get_pipeline m) x_train y_train ;;
  ret (set_pipeline m p).

(** Lines 117-124. *)
Definition evaluate_model (x_train x_test : list string)
  (y_train y_test : list Z) (m : model)
  : result (accuracy * accuracy * matrix) :=
  p_train <- call m x_train ;;
  train_acc <- accuracy_score y_train p_train ;;
  p_test <- call m x_test ;;
  test_acc <- accuracy_score y_test p_test ;;
  p_test' <- call m x_test ;;
  conf_matrix <- confusion_matrix y_test p_test' ;;
  Ok (train_acc, test_acc, conf_matrix).

(** Lines 127-131; [model_id] is the text that [format] puts in the
    file name. *)
Definition save_model (m : model) (model_id : string) : M world unit :=
  let path :=
    os_path_join MODEL_DIR ("model-" ++ model_id ++ ".sav")%string in
  print path ;;;
  dill_dump m path.

(** Lines 134-149; an argument left out is [None] and takes its default. *)
Definition train_model (x : list string) (y : list Z) (clf : clf_t)
  (clf_params vect_params : params) (test_size : option Q)
  (values_per_category : option Z)
  : M world (model * accuracy * accuracy * matrix) :=
  let test_size :=
    match test_size with Some t => t | None => (3 # 10)%Q end in
  let values_per_category :=
    match values_per_category with Some v => v | None => 900%Z end in
  logger_info "Preprocessing Data..." ;;;
  logger_info "  Cleaning Data" ;;;
  ' (x, y) <~ lift (clean_data x y) ;;
  logger_info "  Balancing Data" ;;;
  ' (x, y) <~ with_gen (balance_data x y values_per_category) ;;
  logger_info "  Splitting Data" ;;;
  ' (x_train, x_test, y_train, y_test) <~
      with_gen (train_test_split x y test_size) ;;
  logger_info "Finished Preprocessing!" ;;;
  m <~ lift (create_model clf clf_params vect_params) ;;
  logger_info "Created Model" ;;;
  logger_info "Training Model..." ;;;
  m <~ with_gen (_train_model x_train y_train m) ;;
  logger_info "Finished training!" ;;;
  ' (train_acc, test_acc, conf_matrix) <~
      lift (evaluate_model x_train x_test y_train y_test m) ;;
  ret (m, train_acc, test_acc, conf_matrix).

End Pipeline.

Section Rules.

Variable lower : string -> string.
Variable DataPreprocessor : string -> string.

(** The cleaning rules of the specification, on (text, label) records.
    [contains kw t]: the text contains the keyword, whatever the case of
    its letters. *)
Definition contains (kw t : string) : bool := py_in kw (lower t).

(** Rule 1: a text with "verkehrskontroll" labelled drugs (5) becomes
    accident (4). *)
Definition rule_verkehrskontroll (r : string * Z) : string * Z :=
  (fst r,
   if contains "verkehrskontroll" (fst r) && (snd r =? 5)%Z
   then 4%Z else snd r).

(** Rule 2: a text with "eingebroch" labelled accident (4) becomes
    assault (3). *)
Definition rule_eingebroch (r : string * Z) : string * Z :=
  (fst r,
   if contains "eingebroch" (fst r) && (snd r =? 4)%Z then 3%Z else snd r).

(** Rules 3 to 5: what is dropped. *)
Definition rule_dropped (r : string * Z) : bool :=
  contains "alkohol" (fst r)
  || (contains "dienstagmorg" (fst r) && (snd r =? 3)%Z)
  || (contains "fahrrad" (fst r) && (snd r =? 3)%Z).

(** The keywords of the five rules. *)
Definition keywords : list string :=
  ["verkehrskontroll"; "eingebroch"; "alkohol"; "dienstagmorg";
   "fahrrad"]%string.

Definition relabelled (records : list (string * Z)) : list (string * Z) :=
  map rule_eingebroch (map rule_verkehrskontroll records).

Definition survivors (records : list (string * Z)) : list (string * Z) :=
  filter (fun r => negb (rule_dropped r)) (relabelled records).

(** Rules 1 to 6 in order. *)
Definition clean_rules (records : list (string * Z)) : list (string * Z) :=
  map (fun r => (DataPreprocessor (fst r), snd r)) (survivors records).

End Rules.

(** The number of examples that [balance_data] leaves of a category with
    [n] examples: the slice [idxs[: n - n_per_class]] of the [n] shuffled
    positions is deleted. *)
Definition left_count (n : nat) (n_per_class : Z) : nat :=
  let stop := (Z.of_nat n - n_per_class)%Z in
  (n - Z.to_nat (if (stop <? 0)%Z then stop + Z.of_nat n else stop))%nat.

(** ** Instances on which the pipeline can be run *)

(** Lower-casing of the letters A to Z; [str.lower] is this function on
    texts of 7-bit characters. *)
Definition lower_char (c : ascii) : ascii :=
  let n := nat_of_ascii c in
  if ((65 <=? n) && (n <=? 90))%nat then ascii_of_nat (n + 32) else c.

Fixpoint ascii_lower (s : string) : string :=
  match s with
  | EmptyString => EmptyString
  | String c s' => String (lower_char c) (ascii_lower s')
  end.

(** A preprocessor that takes the hyphens out of a text. *)
Fixpoint strip_hyphens (s : string) : string :=
  match s with
  | EmptyString => EmptyString
  | String c s' =>
      if Ascii.eqb c "-"%char then strip_hyphens s'
      else String c (strip_hyphens s')
  end.

(** A shuffle that reverses the array; the generator has one state. *)
Definition reversing_shuffle (idxs : list nat) (g : unit) : list nat * unit :=
  (rev idxs, g).

(** A model that remembers its training set: the pipeline is the list of
    (text, label) pairs seen by [fit], and a call answers with the label
    remembered for a text, 0 for a text not seen. *)
Definition toy_model : Type := list (string * Z).

Definition toy_Model (clf clf_params vect_params : unit) : result toy_model :=
  Ok [].

Definition toy_fit (p : toy_model) (x : list string) (y : list Z)
  : M unit toy_model :=
  ret (combine x y).

Definition toy_call (m : toy_model) (x : list string) : result (list Z) :=
  Ok (map (fun t =>
             match find (fun r => String.eqb (fst r) t) m with
             | Some r => snd r
             | None => 0%Z
             end) x).

(** Accuracy as the pair (labels predicted right, labels); the confusion
    matrix as the list of (true label, predicted label). *)
Definition toy_accuracy_score (y_true y_pred : list Z) : result (nat * nat) :=
  Ok (length (filter (fun r => (fst r =? snd r)%Z) (combine y_true y_pred)),
      length y_true).

Definition toy_confusion_matrix (y_true y_pred : list Z)
  : result (list (Z * Z)) :=
  Ok (combine y_true y_pred).

(** A split that holds out the first example. *)
Definition toy_split (x : list string) (y : list Z) (test_size : Q)
  : M unit (list string * list string * list Z * list Z) :=
  ret (skipn 1 x, firstn 1 x, skipn 1 y, firstn 1 y).

End TrainModel.

(* ================================================================== *)
(** * Facts about the primitives                                        *)
(* ================================================================== *)

Module PyFacts.

(** ** Slices *)

Lemma firstn_add {A : Type} (a b : nat) (l : list A) :
  firstn (a + b) l = firstn a l ++ firstn b (skipn a l).
Proof.
  revert l; induction a as [|a IH]; intros l; [reflexivity|].
  destruct l as [|v l]; simpl.
  - now rewrite firstn_nil.
  - now rewrite IH.
Qed.

(** Between bounds [0 <= a <= b] a slice drops [a] elements and keeps the
    next [b - a], as far as the list goes. *)
Lemma py_slice_nonneg {A : Type} (l : list A) (a b : Z) :
  (0 <= a <= b)%Z ->
  py_slice l (Some a) (Some b)
  = firstn (Z.to_nat (b - a)) (skipn (Z.to_nat a) l).
Proof.
  intros Hab. unfold py_slice, slice_index.
  destruct (Z.ltb_spec a 0); [lia|].
  destruct (Z.ltb_spec b 0); [lia|].
  set (len := Z.of_nat (length l)).
  destruct (Z.le_gt_cases a len) as [Ha|Ha].
  - rewrite (Z.min_l a len) by lia.
    destruct (Z.le_gt_cases b len) as [Hb|Hb].
    + now rewrite (Z.min_l b len) by lia.
    + rewrite (Z.min_r b len) by lia.
      rewrite !firstn_all2; trivial; rewrite length_skipn; subst len; lia.
  - rewrite (Z.min_r a len), (Z.min_r b len) by lia.
    rewrite (skipn_all2 (n := Z.to_nat a)) by (subst len; lia).
    now rewrite firstn_nil, Z.sub_diag.
Qed.

(** A slice with only an upper bound. *)
Lemma py_slice_upto {A : Type} (l : list A) (stop : Z) :
  py_slice l None (Some stop)
  = firstn (Z.to_nat (if (stop <? 0)%Z
                      then stop + Z.of_nat (length l) else stop)) l.
Proof.
  unfold py_slice, slice_index. rewrite Z.sub_0_r. simpl skipn.
  destruct (Z.ltb_spec stop 0).
  - destruct (Z.max_spec 0 (stop + Z.of_nat (length l))) as [[_ ->]|[? ->]];
      trivial.
    replace (Z.to_nat (stop + Z.of_nat (length l))) with 0%nat by lia.
    reflexivity.
  - destruct (Z.min_spec stop (Z.of_nat (length l))) as [[_ ->]|[? ->]];
      trivial.
    rewrite Nat2Z.id, !firstn_all2; trivial; lia.
Qed.

(** Consecutive chunks of [size] elements, put end to end, are a prefix. *)
Lemma concat_chunks {A : Type} (size n : nat) (l : list A) :
  concat (map (fun k => firstn size (skipn (k * size) l)) (seq 0 n))
  = firstn (n * size) l.
Proof.
  induction n as [|n IH]; [reflexivity|].
  rewrite seq_S, map_app, concat_app, IH. simpl.
  rewrite app_nil_r, (Nat.add_comm size), firstn_add. reflexivity.
Qed.

(** ** Index arrays *)

Lemma mem_In (j : nat) (l : list nat) : mem j l = true <-> In j l.
Proof.
  unfold mem. rewrite existsb_exists. split.
  - intros [k [Hk Heq]]. apply Nat.eqb_eq in Heq. now subst.
  - intros Hj. exists j. split; trivial. apply Nat.eqb_refl.
Qed.

Lemma mem_ext (j : nat) (l l' : list nat) :
  (In j l <-> In j l') -> mem j l = mem j l'.
Proof.
  intros H. apply eq_true_iff_eq. now rewrite !mem_In.
Qed.

Lemma mem_filter (f : nat -> bool) (j : nat) (l : list nat) :
  mem j (filter f l) = f j && mem j l.
Proof.
  apply eq_true_iff_eq.
  rewrite andb_true_iff, !mem_In, filter_In. tauto.
Qed.

Lemma In_where_from (j pos : nat) (mask : list bool) :
  In j (where_from pos mask)
  <-> (pos <= j)%nat /\ nth_error mask (j - pos) = Some true.
Proof.
  revert pos; induction mask as [|b mask IH]; intros pos; simpl.
  - split; [tauto|]. intros [_ H]. now destruct (j - pos)%nat.
  - assert (Htail : In j (where_from (S pos) mask)
                    <-> (pos < j)%nat /\ nth_error (b :: mask) (j - pos)
                                         = Some true).
    { rewrite IH. split; intros [Hlt H]; (split; [lia|]).
      - now replace (j - pos)%nat with (S (j - S pos)) by lia.
      - now replace (j - pos)%nat with (S (j - S pos)) in H by lia. }
    destruct b; simpl; rewrite Htail.
    + split.
      * intros [->|[Hlt H]]; [|split; [lia|trivial]].
        split; [lia|]. now rewrite Nat.sub_diag.
      * intros [Hle H]. destruct (Nat.eq_dec pos j); [now left|right].
        split; [lia|trivial].
    + split; [intros [Hlt H]; split; [lia|trivial]|].
      intros [Hle H]. split; trivial.
      destruct (Nat.eq_dec pos j) as [->|]; [|lia].
      rewrite Nat.sub_diag in H. discriminate.
Qed.

Lemma mem_np_where (j : nat) (mask : list bool) :
  mem j (np_where mask) = nth j mask false.
Proof.
  apply eq_true_iff_eq. unfold np_where.
  rewrite mem_In, In_where_from, Nat.sub_0_r. split.
  - intros [_ H]. now rewrite (nth_error_nth _ _ _ H).
  - intros H. split; [lia|].
    destruct (nth_error mask j) as [b|] eqn:E.
    + now rewrite (nth_error_nth _ _ _ E) in H; subst.
    + apply nth_error_None in E. now rewrite nth_overflow in H.
Qed.

Lemma where_from_bound (j pos : nat) (mask : list bool) :
  In j (where_from pos mask) -> (j < pos + length mask)%nat.
Proof.
  rewrite In_where_from. intros [Hle H].
  assert (j - pos < length mask)%nat by (apply nth_error_Some; congruence).
  lia.
Qed.

Lemma where_from_NoDup (pos : nat) (mask : list bool) :
  NoDup (where_from pos mask).
Proof.
  revert pos; induction mask as [|b mask IH]; intros pos; simpl.
  - constructor.
  - destruct b; [constructor|]; trivial.
    intros H. apply In_where_from in H. lia.
Qed.

Lemma length_where_from (pos : nat) (mask : list bool) :
  length (where_from pos mask) = count_occ bool_dec mask true.
Proof.
  revert pos; induction mask as [|b mask IH]; intros pos; simpl; trivial.
  destruct b; simpl; now rewrite IH.
Qed.

(** ** Sorting without repetition *)

Lemma In_insert_unique_nat (v j : nat) (l : list nat) :
  In j (insert_unique Nat.ltb Nat.eqb v l) <-> j = v \/ In j l.
Proof.
  induction l as [|h t IH]; simpl; [intuition|].
  destruct (Nat.ltb_spec v h); [simpl; intuition|].
  destruct (Nat.eqb_spec v h); simpl; [subst; intuition|].
  rewrite IH. intuition.
Qed.

Lemma In_sort_unique_nat (j : nat) (l : list nat) :
  In j (sort_unique Nat.ltb Nat.eqb l) <-> In j l.
Proof.
  induction l as [|h t IH]; simpl; [tauto|].
  rewrite In_insert_unique_nat, IH. intuition.
Qed.

Lemma mem_np_intersect1d (j : nat) (a b : list nat) :
  mem j (np_intersect1d a b) = mem j a && mem j b.
Proof.
  unfold np_intersect1d. rewrite mem_filter, andb_comm. f_equal.
  apply mem_ext, In_sort_unique_nat.
Qed.

Lemma In_np_intersect1d (j : nat) (a b : list nat) :
  In j (np_intersect1d a b) -> In j a /\ In j b.
Proof.
  rewrite <- !mem_In, mem_np_intersect1d. apply andb_true_iff.
Qed.

Lemma In_insert_unique_Z (v c : Z) (l : list Z) :
  In c (insert_unique Z.ltb Z.eqb v l) <-> c = v \/ In c l.
Proof.
  induction l as [|h t IH]; simpl; [intuition|].
  destruct (Z.ltb_spec v h); [simpl; intuition|].
  destruct (Z.eqb_spec v h); simpl; [subst; intuition|].
  rewrite IH. intuition.
Qed.

Lemma In_np_unique (c : Z) (y : list Z) : In c (np_unique y) <-> In c y.
Proof.
  unfold np_unique, sort_unique.
  induction y as [|h t IH]; simpl; [tauto|].
  rewrite In_insert_unique_Z, IH. intuition.
Qed.

(** [np.unique] returns its values in strictly ascending order. *)
Lemma insert_unique_sorted (v : Z) (l : list Z) :
  StronglySorted Z.lt l ->
  StronglySorted Z.lt (insert_unique Z.ltb Z.eqb v l).
Proof.
  induction l as [|h t IH]; intros Hs; simpl.
  - repeat constructor.
  - inversion Hs as [|? ? Ht Hh]; subst.
    destruct (Z.ltb_spec v h) as [Hlt|Hge].
    + constructor; trivial. constructor; trivial.
      eapply Forall_impl; [|exact Hh]. intros; cbv beta in *; lia.
    + destruct (Z.eqb_spec v h); trivial.
      constructor; [now apply IH|].
      apply Forall_forall. intros c Hc.
      apply In_insert_unique_Z in Hc as [->|Hc]; [lia|].
      now apply (proj1 (Forall_forall _ _) Hh).
Qed.

Lemma np_unique_sorted (y : list Z) : StronglySorted Z.lt (np_unique y).
Proof.
  unfold np_unique, sort_unique.
  induction y as [|h t IH]; simpl; [constructor|].
  now apply insert_unique_sorted.
Qed.

Lemma np_unique_NoDup (y : list Z) : NoDup (np_unique y).
Proof.
  induction (np_unique_sorted y) as [|c l _ IH Hc]; constructor; trivial.
  intros Hin. apply (proj1 (Forall_forall _ _) Hc) in Hin. lia.
Qed.

(** ** Masks, deletion and assignment *)

Lemma compress_map {A B : Type} (f : A -> B) (mask : list bool) (l : list A) :
  compress mask (map f l) = map f (compress mask l).
Proof.
  revert l; induction mask as [|b mask IH]; intros [|v l]; simpl; trivial.
  destruct b; simpl; now rewrite IH.
Qed.

Lemma length_compress_eq {A B : Type} (mask : list bool) (x : list A)
  (y : list B) :
  length x = length y -> length (compress mask x) = length (compress mask y).
Proof.
  revert x y; induction mask as [|b mask IH]; intros [|u x] [|v y]; simpl;
    trivial; try discriminate.
  intros [= H]. destruct b; simpl; now rewrite (IH x y).
Qed.

Lemma compress_combine {A B : Type} (mask : list bool) (x : list A)
  (y : list B) :
  length x = length y ->
  compress mask (combine x y) = combine (compress mask x) (compress mask y).
Proof.
  revert x y; induction mask as [|b mask IH]; intros [|u x] [|v y]; simpl;
    trivial; try discriminate.
  intros [= H]. destruct b; simpl; now rewrite (IH x y).
Qed.

Lemma length_compress_le {A : Type} (mask : list bool) (l : list A) :
  (length (compress mask l) <= length l)%nat.
Proof.
  revert l; induction mask as [|b mask IH]; intros [|v l]; simpl; try lia.
  specialize (IH l). destruct b; simpl; lia.
Qed.

Lemma compress_nil_r {A : Type} (mask : list bool) :
  compress mask (@nil A) = [].
Proof. now destruct mask. Qed.

Lemma compress_compress {A : Type} (m1 m2 : list bool) (l : list A) :
  compress m2 (compress m1 l) = compress (compose_mask m1 m2) l.
Proof.
  revert m2 l; induction m1 as [|b m1 IH]; intros m2 l.
  - simpl. apply compress_nil_r.
  - destruct l as [|v l]; [now rewrite !compress_nil_r|].
    destruct b; simpl; [|apply IH].
    destruct m2 as [|b2 m2]; simpl.
    + now rewrite <- IH.
    + destruct b2; now rewrite IH.
Qed.

Lemma length_compose_mask (m1 m2 : list bool) :
  length (compose_mask m1 m2) = length m1.
Proof.
  revert m2; induction m1 as [|b m1 IH]; intros m2; simpl; trivial.
  destruct b; [destruct m2|]; simpl; now rewrite IH.
Qed.

(** Deleting the positions that [del] marks is filtering, when [del] is
    decided by the element at the position. *)
Lemma compress_filter {A : Type} (del : nat -> bool) (c : A -> bool)
  (pos : nat) (l : list A) :
  (forall k r, nth_error l k = Some r -> del (pos + k)%nat = c r) ->
  compress (map (fun j => negb (del j)) (seq pos (length l))) l
  = filter (fun r => negb (c r)) l.
Proof.
  revert pos; induction l as [|v l IH]; intros pos H; simpl; trivial.
  rewrite <- (H 0%nat v eq_refl), Nat.add_0_r.
  rewrite IH; [reflexivity|].
  intros k r Hk. rewrite <- (H (S k) r Hk). f_equal. lia.
Qed.

Lemma assign_from_map {A B : Type} (c : A -> bool) (f : A -> B) (pos : nat)
  (l : list A) (idxs : list nat) (v : B) :
  (forall k r, nth_error l k = Some r -> mem (pos + k) idxs = c r) ->
  assign_from pos (map f l) idxs v = map (fun r => if c r then v else f r) l.
Proof.
  revert pos; induction l as [|a l IH]; intros pos H; simpl; trivial.
  rewrite <- (H 0%nat a eq_refl), Nat.add_0_r. f_equal.
  apply IH. intros k r Hk. rewrite <- (H (S k) r Hk). f_equal. lia.
Qed.

Lemma in_bounds_spec (n : nat) (idxs : list nat) :
  in_bounds n idxs = true <-> (forall j, In j idxs -> (j < n)%nat).
Proof.
  unfold in_bounds. rewrite forallb_forall.
  split; intros H j Hj; specialize (H j Hj); now apply Nat.ltb_lt.
Qed.

Lemma map_fst_combine_eq {A B : Type} (x : list A) (y : list B) :
  length x = length y -> map fst (combine x y) = x.
Proof.
  revert y; induction x as [|u x IH]; intros [|v y]; simpl; trivial;
    try discriminate.
  intros [= H]. now rewrite IH.
Qed.

Lemma map_snd_combine_eq {A B : Type} (x : list A) (y : list B) :
  length x = length y -> map snd (combine x y) = y.
Proof.
  revert y; induction x as [|u x IH]; intros [|v y]; simpl; trivial;
    try discriminate.
  intros [= H]. now rewrite IH.
Qed.

Lemma combine_fst_snd {A B : Type} (l : list (A * B)) :
  combine (map fst l) (map snd l) = l.
Proof.
  induction l as [|[u v] l IH]; simpl; trivial. now rewrite IH.
Qed.

(** ** Counting what a deletion leaves *)

Lemma count_compress_split (del : nat -> bool) (pos : nat) (y : list Z)
  (c : Z) :
  (count_occ Z.eq_dec
     (compress (map (fun j => negb (del j)) (seq pos (length y))) y) c
   + count_occ Z.eq_dec (compress (map del (seq pos (length y))) y) c)%nat
  = count_occ Z.eq_dec y c.
Proof.
  revert pos; induction y as [|v y IH]; intros pos; simpl; trivial.
  specialize (IH (S pos)).
  destruct (del pos); simpl; destruct (Z.eq_dec v c); lia.
Qed.

Lemma compress_deleted_repeat (del : nat -> bool) (pos : nat) (y : list Z)
  (i : Z) :
  (forall k, del (pos + k)%nat = true -> (k < length y)%nat ->
     nth_error y k = Some i) ->
  compress (map del (seq pos (length y))) y
  = repeat i (length (filter del (seq pos (length y)))).
Proof.
  revert pos; induction y as [|v y IH]; intros pos H; simpl; trivial.
  assert (Htail : forall k, del (S pos + k)%nat = true ->
                    (k < length y)%nat -> nth_error y k = Some i).
  { intros k Hk Hlt. apply (H (S k)); [|simpl; lia].
    now replace (pos + S k)%nat with (S pos + k)%nat by lia. }
  destruct (del pos) eqn:E; simpl; rewrite (IH (S pos) Htail); trivial.
  f_equal. specialize (H 0%nat). rewrite Nat.add_0_r in H.
  specialize (H E). simpl in H. assert (Some v = Some i) by (apply H; lia).
  congruence.
Qed.

Lemma length_filter_mem (idxs : list nat) (n : nat) :
  NoDup idxs -> (forall j, In j idxs -> (j < n)%nat) ->
  length (filter (fun j => mem j idxs) (seq 0 n)) = length idxs.
Proof.
  intros Hnd Hlt. apply Permutation_length, NoDup_Permutation; trivial.
  - apply NoDup_filter, seq_NoDup.
  - intros j. rewrite filter_In, in_seq, mem_In. split; [tauto|].
    intros Hj. specialize (Hlt j Hj). split; [lia|trivial].
Qed.

Lemma count_occ_repeat (i c : Z) (n : nat) :
  count_occ Z.eq_dec (repeat i n) c = if Z.eq_dec c i then n else 0%nat.
Proof.
  induction n as [|n IH]; simpl.
  - now destruct (Z.eq_dec c i).
  - rewrite IH. destruct (Z.eq_dec i c), (Z.eq_dec c i); congruence.
Qed.

(** Deleting distinct positions that all hold [i] removes that many
    occurrences of [i] and none of any other value. *)
Lemma np_delete_count (y : list Z) (idxs : list nat) (i c : Z) :
  NoDup idxs -> (forall j, In j idxs -> nth_error y j = Some i) ->
  exists y', np_delete y idxs = Ok y' /\
    count_occ Z.eq_dec y' c
    = if Z.eq_dec c i
      then (count_occ Z.eq_dec y i - length idxs)%nat
      else count_occ Z.eq_dec y c.
Proof.
  intros Hnd Hi.
  assert (Hlt : forall j, In j idxs -> (j < length y)%nat).
  { intros j Hj. apply nth_error_Some. rewrite (Hi j Hj). discriminate. }
  unfold np_delete. rewrite (proj2 (in_bounds_spec _ _) Hlt).
  eexists; split; [reflexivity|].
  pose proof (count_compress_split (fun j => mem j idxs) 0 y c) as Hsplit.
  rewrite (@compress_deleted_repeat (fun j => mem j idxs) 0 y i) in Hsplit.
  - rewrite (length_filter_mem Hnd Hlt), count_occ_repeat in Hsplit.
    destruct (Z.eq_dec c i); subst; lia.
  - intros k Hk _. apply Hi. now apply mem_In.
Qed.

(** ** Deletion and assignment on the columns of a list of records *)

Lemma nth_map_bool {A : Type} (f : A -> bool) (l : list A) (k : nat) (a : A) :
  nth_error l k = Some a -> nth k (map f l) false = f a.
Proof.
  intros H. apply nth_error_nth. now apply map_nth_error.
Qed.

Lemma np_where_bound {A : Type} (f : A -> bool) (l : list A) (j : nat) :
  In j (np_where (map f l)) -> (j < length l)%nat.
Proof.
  intros H. apply where_from_bound in H. now rewrite length_map in H.
Qed.

Lemma np_delete_records {A B : Type} (f : A -> B) (l : list A)
  (idxs : list nat) (c : A -> bool) :
  (forall j, In j idxs -> (j < length l)%nat) ->
  (forall k r, nth_error l k = Some r -> mem k idxs = c r) ->
  np_delete (map f l) idxs = Ok (map f (filter (fun r => negb (c r)) l)).
Proof.
  intros Hlt Hc. unfold np_delete. rewrite length_map.
  rewrite (proj2 (in_bounds_spec _ _) Hlt), compress_map.
  now rewrite (compress_filter (fun j => mem j idxs) c 0 l).
Qed.

Lemma np_setitem_records {A B : Type} (f : A -> B) (l : list A)
  (idxs : list nat) (c : A -> bool) (v : B) :
  (forall j, In j idxs -> (j < length l)%nat) ->
  (forall k r, nth_error l k = Some r -> mem k idxs = c r) ->
  np_setitem (map f l) idxs v = Ok (map (fun r => if c r then v else f r) l).
Proof.
  intros Hlt Hc. unfold np_setitem. rewrite length_map.
  rewrite (proj2 (in_bounds_spec _ _) Hlt).
  now rewrite (assign_from_map c f 0 l).
Qed.

End PyFacts.

(* ================================================================== *)
(** * The importer: properties                                          *)
(* ================================================================== *)

Module ImportDataSpec.
Import ImportData PyFacts.

Section Conversion.
Variable utf8_decode : list Byte.byte -> option string.

(** C7.  [convert_to_string] never raises.  On a byte string that decodes
    as UTF-8 it returns the decoded text; whenever the [decode] call raises,
    because the bytes are not valid UTF-8 or because the value is no byte
    string and has no such method, it returns the value it was given. *)
Theorem convert_to_string_total (x : value) :
  (exists v, convert_to_string utf8_decode x = Ok v) /\
  (forall b s, x = Bytes b -> utf8_decode b = Some s ->
     convert_to_string utf8_decode x = Ok (Str s)) /\
  (forall e, decode utf8_decode x = Raise e ->
     convert_to_string utf8_decode x = Ok x) /\
  (forall b, x = Bytes b -> utf8_decode b = None ->
     convert_to_string utf8_decode x = Ok x) /\
  ((forall b, x <> Bytes b) -> convert_to_string utf8_decode x = Ok x).
Proof.
  unfold convert_to_string. repeat split.
  - destruct (decode utf8_decode x) as [v|e]; simpl; eauto.
  - intros b s -> Hs. simpl. now rewrite Hs.
  - intros e ->. reflexivity.
  - intros b -> Hb. simpl. now rewrite Hb.
  - intros Hx. destruct x as [b| |]; trivial. now elim (Hx b).
Qed.

End Conversion.

(** The conversion on a byte string of 7-bit characters, on a byte that no
    UTF-8 text contains, and on a text. *)
Lemma convert_to_string_total_witness :
  convert_to_string decode_7bit (Bytes [Byte.x61; Byte.x62])
    = Ok (Str "ab") /\
  convert_to_string decode_7bit (Bytes [Byte.xff]) = Ok (Bytes [Byte.xff]) /\
  convert_to_string decode_7bit (Str "ab") = Ok (Str "ab").
Proof.
  split; [|split].
  - apply (convert_to_string_total decode_7bit (Bytes [Byte.x61; Byte.x62]))
      with (b := [Byte.x61; Byte.x62]); reflexivity.
  - apply (convert_to_string_total decode_7bit (Bytes [Byte.xff]))
      with (b := [Byte.xff]); reflexivity.
  - apply (convert_to_string_total decode_7bit (Str "ab")).
    intros b; discriminate.
Defined.

Section Records.
Variable num : Type.
Variable py_int : num -> Z.

Lemma nth_error_build_documents (d : string) (X : list value) (Y : list num)
  (i : nat) (x : value) (y : num) :
  nth_error X i = Some x -> nth_error Y i = Some y ->
  nth_error (build_documents py_int d X Y) i
  = Some {| data := x; categories := [py_int y];
            time_created := d; time_modified := d |}.
Proof.
  unfold build_documents. revert Y i.
  induction X as [|x0 X IH]; intros [|y0 Y] [|i]; simpl; intros Hx Hy;
    try discriminate.
  - now injection Hx as ->; injection Hy as ->.
  - now apply IH.
Qed.

(** C6.  From [N] aligned pairs the importer builds [N] records; the
    record at every position holds that position's text, the one-element
    list of the integer value of that position's label, and the run's
    timestamp in both time fields. *)
Theorem build_documents_records (current_date : string) (X : list value)
  (Y : list num) :
  length X = length Y ->
  length (build_documents py_int current_date X Y) = length X /\
  (forall i x y, nth_error X i = Some x -> nth_error Y i = Some y ->
     exists r, nth_error (build_documents py_int current_date X Y) i = Some r
       /\ data r = x /\ categories r = [py_int y]) /\
  (forall r, In r (build_documents py_int current_date X Y) ->
     length (categories r) = 1%nat /\
     time_created r = time_modified r /\ time_created r = current_date).
Proof.
  intros Hlen. split; [|split].
  - unfold build_documents. rewrite length_map, length_combine. lia.
  - intros i x y Hx Hy. eexists. split.
    + eapply nth_error_build_documents; eassumption.
    + now split.
  - intros r Hr. unfold build_documents in Hr.
    apply in_map_iff in Hr as [[x y] [<- _]]. now repeat split.
Qed.

End Records.

Lemma build_documents_records_witness :
  length [Str "Brand in Halle"; Str "Einbruch"] = length [1%Z; 3%Z] /\
  length (build_documents (fun z : Z => z) "2020-01-01 10:00:00"
            [Str "Brand in Halle"; Str "Einbruch"] [1%Z; 3%Z]) = 2%nat.
Proof.
  split; [reflexivity|].
  apply (build_documents_records (fun z : Z => z) "2020-01-01 10:00:00"
           [Str "Brand in Halle"; Str "Einbruch"] [1%Z; 3%Z]).
  reflexivity.
Defined.

Section Batches.

(** The batch of the round with index [S k]. *)
Let chunk (data : list document) (k : nat) : list document :=
  firstn 1000 (skipn (k * 1000) data).

Lemma fold_loop_body (data : list document) (l : list Z) (out : list event) :
  fold_left (loop_body data) l out
  = out ++ flat_map (fun i =>
              [Print i;
               InsertMany (py_slice data (Some ((i - 1) * 1000)%Z)
                                         (Some (i * 1000)%Z))]) l.
Proof.
  revert out; induction l as [|i l IH]; intros out; simpl.
  - now rewrite app_nil_r.
  - rewrite IH. unfold loop_body. now rewrite <- app_assoc.
Qed.

Lemma insert_calls_rounds (s : Z -> list document) (l : list Z) :
  insert_calls (flat_map (fun i => [Print i; InsertMany (s i)]) l) = map s l.
Proof.
  induction l as [|i l IH]; [reflexivity|].
  cbn [flat_map map]. unfold insert_calls in *.
  rewrite flat_map_app, IH. reflexivity.
Qed.

Lemma printed_rounds (s : Z -> list document) (l : list Z) :
  printed (flat_map (fun i => [Print i; InsertMany (s i)]) l) = l.
Proof.
  induction l as [|i l IH]; [reflexivity|].
  cbn [flat_map]. unfold printed in *.
  rewrite flat_map_app, IH. reflexivity.
Qed.

Lemma batch_indices (n : nat) :
  py_range 1 (Z.of_nat n / 1000 + 2)
  = map (fun k => Z.of_nat (S k)) (seq 0 (n / 1000 + 1)).
Proof.
  unfold py_range.
  replace (Z.to_nat (Z.of_nat n / 1000 + 2 - 1)) with (n / 1000 + 1)%nat.
  - apply map_ext. intros k. lia.
  - change 1000%Z with (Z.of_nat 1000). rewrite <- Nat2Z.inj_div. lia.
Qed.

Lemma batch_slice (data : list document) (k : nat) :
  py_slice data (Some ((Z.of_nat (S k) - 1) * 1000)%Z)
                (Some (Z.of_nat (S k) * 1000)%Z)
  = chunk data k.
Proof.
  rewrite py_slice_nonneg by lia. unfold chunk. f_equal; [|f_equal]; lia.
Qed.

Lemma insert_calls_import_loop (data : list document) :
  insert_calls (import_loop data)
  = map (chunk data) (seq 0 (length data / 1000 + 1)).
Proof.
  unfold import_loop. rewrite fold_loop_body, batch_indices.
  unfold insert_calls at 1. rewrite flat_map_app.
  fold (insert_calls
          (flat_map (fun i =>
             [Print i;
              InsertMany (py_slice data (Some ((i - 1) * 1000)%Z)
                                        (Some (i * 1000)%Z))])
             (map (fun k => Z.of_nat (S k))
                  (seq 0 (length data / 1000 + 1))))).
  rewrite insert_calls_rounds, map_map. simpl app.
  apply map_ext. intros k. apply batch_slice.
Qed.

Lemma printed_import_loop (data : list document) :
  printed (import_loop data)
  = Z.of_nat (length data)
    :: map Z.of_nat (seq 1 (length data / 1000 + 1)).
Proof.
  unfold import_loop. rewrite fold_loop_body, batch_indices.
  unfold printed at 1. rewrite flat_map_app.
  fold (printed
          (flat_map (fun i =>
             [Print i;
              InsertMany (py_slice data (Some ((i - 1) * 1000)%Z)
                                        (Some (i * 1000)%Z))])
             (map (fun k => Z.of_nat (S k))
                  (seq 0 (length data / 1000 + 1))))).
  rewrite printed_rounds, <- seq_shift, map_map. reflexivity.
Qed.

Lemma length_chunk (data : list document) (k : nat) :
  length (chunk data k) = Nat.min 1000 (length data - k * 1000).
Proof. unfold chunk. now rewrite length_firstn, length_skipn. Qed.

Lemma batch_sizes (data : list document) :
  map (@length document) (insert_calls (import_loop data))
  = repeat 1000%nat (length data / 1000) ++ [length data mod 1000]%nat.
Proof.
  rewrite insert_calls_import_loop, Nat.add_1_r, seq_S, !map_app.
  pose proof (Nat.div_mod_eq (length data) 1000) as Hdiv.
  pose proof (Nat.mod_upper_bound (length data) 1000) as Hmod.
  f_equal.
  - rewrite map_map.
    transitivity (map (fun _ : nat => 1000%nat) (seq 0 (length data / 1000))).
    + apply map_ext_in. intros k Hk. apply in_seq in Hk.
      rewrite length_chunk. lia.
    + now rewrite map_const, length_seq.
  - cbn [map Nat.add]. rewrite length_chunk. f_equal. lia.
Qed.

(** C2.  For a record list of length [N] the loop issues [N / 1000 + 1]
    insert calls and prints, after [N], the batch indices [1 .. N / 1000 + 1];
    the call of index [i + 1] holds the next up to 1000 records after the
    first [1000 * i]; the sizes are 1000 for each of the first [N / 1000]
    calls and [N mod 1000] for the last one, so 1000, 1000, 500 for
    [N = 2500] and 1000, 1000, 0 for [N = 2000]. *)
Theorem import_loop_batches (data : list document) :
  let N := length data in
  let calls := insert_calls (import_loop data) in
  length calls = (N / 1000 + 1)%nat /\
  printed (import_loop data)
    = Z.of_nat N :: map Z.of_nat (seq 1 (N / 1000 + 1)) /\
  (forall i, (i < N / 1000 + 1)%nat ->
     nth i calls [] = firstn 1000 (skipn (1000 * i) data)) /\
  map (@length document) calls
    = repeat 1000%nat (N / 1000) ++ [N mod 1000]%nat /\
  (N = 2500%nat -> map (@length document) calls = [1000; 1000; 500]%nat) /\
  (N = 2000%nat -> map (@length document) calls = [1000; 1000; 0]%nat).
Proof.
  intros N calls.
  assert (Hsizes := batch_sizes data). fold N calls in Hsizes.
  split; [|split; [|split; [|split; [|split]]]]; trivial.
  - subst calls. now rewrite insert_calls_import_loop, length_map, length_seq.
  - apply printed_import_loop.
  - intros i Hi. subst calls. rewrite insert_calls_import_loop.
    rewrite nth_indep with (d' := chunk data 0)
      by now rewrite length_map, length_seq.
    rewrite map_nth, seq_nth by trivial. unfold chunk.
    now rewrite (Nat.mul_comm i).
  - intros HN. rewrite Hsizes, HN. reflexivity.
  - intros HN. rewrite Hsizes, HN. reflexivity.
Qed.

(** C10.  The insert calls are the slices [data[(i-1)*1000 : i*1000]] for
    [i] from 1 to [len(data) // 1000 + 1], and put end to end they are
    [data]: every record goes to one call, in its place.  The last call
    holds [len(data) mod 1000] records, none when the count is a multiple
    of 1000. *)
Theorem import_loop_partition (data : list document) :
  insert_calls (import_loop data)
    = map (fun i => py_slice data (Some ((i - 1) * 1000)%Z)
                                  (Some (i * 1000)%Z))
          (py_range 1 (Z.of_nat (length data) / 1000 + 1 + 1)) /\
  concat (insert_calls (import_loop data)) = data /\
  length (last (insert_calls (import_loop data)) [])
    = (length data mod 1000)%nat /\
  ((length data mod 1000 = 0)%nat ->
     last (insert_calls (import_loop data)) [] = []).
Proof.
  pose proof (Nat.div_mod_eq (length data) 1000) as Hdiv.
  pose proof (Nat.mod_upper_bound (length data) 1000) as Hmod.
  assert (Hlast : length (last (insert_calls (import_loop data)) [])
                  = (length data mod 1000)%nat).
  { rewrite insert_calls_import_loop, Nat.add_1_r, seq_S, map_app.
    cbn [map Nat.add]. rewrite last_last, length_chunk. lia. }
  split; [|split; [|split]]; trivial.
  - rewrite insert_calls_import_loop.
    replace (Z.of_nat (length data) / 1000 + 1 + 1)%Z
      with (Z.of_nat (length data) / 1000 + 2)%Z by lia.
    rewrite batch_indices, map_map. apply map_ext.
    intros k. now rewrite batch_slice.
  - rewrite insert_calls_import_loop. unfold chunk.
    rewrite concat_chunks. apply firstn_all2. lia.
  - intros H0. rewrite H0 in Hlast. now apply length_zero_iff_nil.
Qed.

End Batches.

Definition blank : document :=
  {| data := Str "Brand"; categories := [1%Z];
     time_created := "2020-01-01 10:00:00";
     time_modified := "2020-01-01 10:00:00" |}.

Lemma import_loop_batches_witness :
  length (repeat blank 2500) = 2500%nat /\
  map (@length document) (insert_calls (import_loop (repeat blank 2500)))
    = [1000; 1000; 500]%nat.
Proof.
  split; [apply repeat_length|].
  apply (import_loop_batches (repeat blank 2500)). apply repeat_length.
Defined.

Lemma import_loop_partition_witness :
  (length (repeat blank 2000) mod 1000 = 0)%nat /\
  last (insert_calls (import_loop (repeat blank 2000))) [] = [].
Proof.
  assert (H : (length (repeat blank 2000) mod 1000 = 0)%nat)
    by now rewrite repeat_length.
  split; [exact H|].
  apply (import_loop_partition (repeat blank 2000)). exact H.
Defined.

End ImportDataSpec.

(* ================================================================== *)
(** * The training pipeline: properties                                 *)
(* ================================================================== *)

Module TrainModelSpec.
Import TrainModel PyFacts.

(** ** Cleaning *)

Section Cleaning.

Variable lower : string -> string.
Variable DataPreprocessor : string -> string.

(** The arrays are the two columns of a list of records. *)
Lemma columns (x : list string) (y : list Z) :
  length x = length y ->
  x = map fst (combine x y) /\ y = map snd (combine x y).
Proof.
  intros H. now rewrite map_fst_combine_eq, map_snd_combine_eq.
Qed.

Lemma mem_where_column (f : string * Z -> bool) (l : list (string * Z))
  (k : nat) (r : string * Z) :
  nth_error l k = Some r -> mem k (np_where (map f l)) = f r.
Proof.
  intros H. rewrite mem_np_where. now apply nth_map_bool.
Qed.

(** [_change_category] on the columns of [l]: the label of every record
    that meets [condition] and has the old category is overwritten. *)
Lemma change_category_records (f : string -> bool) (old new : Z)
  (l : list (string * Z)) :
  _change_category (map fst l) (map snd l) old new (np_vectorize f)
  = match l with
    | [] => Raise ValueError
    | _ :: _ =>
        Ok (map (fun r => if f (fst r) && (snd r =? old)%Z
                          then new else snd r) l)
    end.
Proof.
  destruct l as [|r0 l0]; [reflexivity|].
  set (l := r0 :: l0). unfold _change_category.
  replace (np_vectorize f (map fst l)) with (Ok (map f (map fst l)))
    by reflexivity.
  cbn [bind]. rewrite !map_map.
  apply np_setitem_records.
  - intros j Hj. apply In_np_intersect1d in Hj as [Hj _].
    now apply np_where_bound in Hj.
  - intros k r Hr. rewrite mem_np_intersect1d.
    now rewrite !(mem_where_column _ _ _ Hr).
Qed.

(** [_drop_all_containing_keyword] on the columns of [l]. *)
Lemma drop_records (keyword : string) (category : option Z)
  (l : list (string * Z)) :
  _drop_all_containing_keyword lower (map fst l) (map snd l) keyword category
  = match l with
    | [] => Raise ValueError
    | _ :: _ =>
        let l' :=
          filter (fun r =>
                    negb (contains lower keyword (fst r)
                          && match category with
                             | Some cat => (snd r =? cat)%Z
                             | None => true
                             end)) l in
        Ok (map fst l', map snd l')
    end.
Proof.
  destruct l as [|r0 l0]; [reflexivity|].
  set (l := r0 :: l0). unfold _drop_all_containing_keyword.
  replace (np_vectorize (fun t => py_in keyword (lower t)) (map fst l))
    with (Ok (map (fun t => py_in keyword (lower t)) (map fst l)))
    by reflexivity.
  cbn [bind]. rewrite !map_map.
  set (c := fun r : string * Z =>
              contains lower keyword (fst r)
              && match category with
                 | Some cat => (snd r =? cat)%Z
                 | None => true
                 end).
  set (idxs := match category with Some _ => _ | None => _ end).
  assert (Hlt : forall j, In j idxs -> (j < length l)%nat).
  { intros j Hj. subst idxs. destruct category.
    - apply In_np_intersect1d in Hj as [Hj _]. now apply np_where_bound in Hj.
    - now apply np_where_bound in Hj. }
  assert (Hc : forall k r, nth_error l k = Some r -> mem k idxs = c r).
  { intros k r Hr. subst idxs c. destruct category.
    - rewrite mem_np_intersect1d, map_map, !(mem_where_column _ _ _ Hr).
      reflexivity.
    - rewrite (mem_where_column _ _ _ Hr). cbv beta.
      now rewrite andb_true_r. }
  rewrite (np_delete_records snd l idxs c Hlt Hc). cbn [bind].
  rewrite (np_delete_records fst l idxs c Hlt Hc). reflexivity.
Qed.

Lemma fst_rule (g : string * Z -> Z) (l : list (string * Z)) :
  map fst l = map fst (map (fun r => (fst r, g r)) l).
Proof. rewrite map_map. apply map_ext. reflexivity. Qed.

Lemma snd_rule (g : string * Z -> Z) (l : list (string * Z)) :
  map g l = map snd (map (fun r => (fst r, g r)) l).
Proof. rewrite map_map. apply map_ext. reflexivity. Qed.

Lemma filter_and {A : Type} (f g : A -> bool) (l : list A) :
  filter f (filter g l) = filter (fun r => g r && f r) l.
Proof.
  induction l as [|r l IH]; simpl; trivial.
  destruct (g r); simpl; [destruct (f r)|]; now rewrite IH.
Qed.

(** The three deletions in turn drop what [rule_dropped] says. *)
Lemma filter_dropped (l : list (string * Z)) :
  filter (fun r => negb (contains lower "fahrrad" (fst r)
                         && (snd r =? 3)%Z))
    (filter (fun r => negb (contains lower "dienstagmorg" (fst r)
                            && (snd r =? 3)%Z))
       (filter (fun r => negb (contains lower "alkohol" (fst r) && true)) l))
  = filter (fun r => negb (rule_dropped lower r)) l.
Proof.
  rewrite !filter_and. apply filter_ext. intros r. unfold rule_dropped.
  destruct (contains lower "alkohol" (fst r)),
    (contains lower "dienstagmorg" (fst r) && (snd r =? 3)%Z),
    (contains lower "fahrrad" (fst r) && (snd r =? 3)%Z); reflexivity.
Qed.

(** Refinement: on the two columns of a list of records, [clean_data]
    computes the rules of the specification, and raises [ValueError] when
    no record survives them. *)
Lemma clean_data_records (l : list (string * Z)) :
  clean_data lower DataPreprocessor (map fst l) (map snd l)
  = match clean_rules lower DataPreprocessor l with
    | [] => Raise ValueError
    | k => Ok (map fst k, map snd k)
    end.
Proof.
  unfold clean_data, clean_rules, survivors, relabelled.
  rewrite <- filter_dropped.
  rewrite change_category_records.
  destruct l as [|r0 l0]; [reflexivity|]. set (l := r0 :: l0).
  cbn [bind].
  rewrite (snd_rule (fun r => if py_in "verkehrskontroll" (lower (fst r))
                                 && (snd r =? 5)%Z then 4%Z else snd r) l).
  rewrite (fst_rule (fun r => if py_in "verkehrskontroll" (lower (fst r))
                                 && (snd r =? 5)%Z then 4%Z else snd r) l).
  change (map (fun r : string * Z =>
                 (fst r, if py_in "verkehrskontroll" (lower (fst r))
                            && (snd r =? 5)%Z then 4%Z else snd r)) l)
    with (map (rule_verkehrskontroll lower) l).
  set (l1 := map (rule_verkehrskontroll lower) l).
  assert (Hl1 : l1 <> []) by (subst l1 l; discriminate).
  clearbody l1. clear l.
  rewrite change_category_records.
  destruct l1 as [|r1 l1]; [congruence|]. clear Hl1. set (l := r1 :: l1).
  cbn [bind].
  rewrite (snd_rule (fun r => if py_in "eingebroch" (lower (fst r))
                                 && (snd r =? 4)%Z then 3%Z else snd r) l).
  rewrite (fst_rule (fun r => if py_in "eingebroch" (lower (fst r))
                                 && (snd r =? 4)%Z then 3%Z else snd r) l).
  change (map (fun r : string * Z =>
                 (fst r, if py_in "eingebroch" (lower (fst r))
                            && (snd r =? 4)%Z then 3%Z else snd r)) l)
    with (map (rule_eingebroch lower) l).
  generalize (map (rule_eingebroch lower) l) as l2. clear l. intros l2.
  rewrite drop_records.
  destruct l2 as [|r2 l2]; [reflexivity|]. cbv zeta. cbn [bind].
  set (k3 := filter _ (r2 :: l2)). rewrite drop_records.
  destruct k3 as [|r3 k3]; [reflexivity|]. cbv zeta. cbn [bind].
  set (k4 := filter _ (r3 :: k3)). rewrite drop_records.
  destruct k4 as [|r4 k4]; [reflexivity|]. cbv zeta. cbn [bind].
  set (k5 := filter _ (r4 :: k4)).
  destruct k5 as [|r5 k5]; [reflexivity|].
  cbn [np_vectorize bind map fst snd]. now rewrite !map_map.
Qed.

Lemma clean_data_columns (x : list string) (y : list Z) :
  length x = length y ->
  clean_data lower DataPreprocessor x y
  = match survivors lower (combine x y) with
    | [] => Raise ValueError
    | kept =>
        Ok (map DataPreprocessor (map fst kept), map snd kept)
    end.
Proof.
  intros Hlen. destruct (columns x y Hlen) as [Hx Hy].
  transitivity (clean_data lower DataPreprocessor
                  (map fst (combine x y)) (map snd (combine x y)));
    [now rewrite <- Hx, <- Hy|].
  rewrite clean_data_records. unfold clean_rules.
  destruct (survivors lower (combine x y)) as [|r k]; trivial.
  cbn [map fst snd]. now rewrite !map_map.
Qed.

Lemma nth_error_combine_Some {A B : Type} (x : list A) (y : list B)
  (i : nat) (a : A) (b : B) :
  nth_error x i = Some a -> nth_error y i = Some b ->
  nth_error (combine x y) i = Some (a, b).
Proof.
  revert y i; induction x as [|u x IH]; intros [|v y] [|i]; simpl;
    intros Ha Hb; try discriminate.
  - congruence.
  - now apply IH.
Qed.

(** C3.  On a dataset with at least one record, the two calls of
    [_change_category] at lines 68-72 succeed and leave the lengths as they
    were.  After the first, a record with "verkehrskontroll" in its
    lower-cased text and label 5 has label 4 and every other label is as
    before; after the second, a record with "eingebroch" in its lower-cased
    text whose label is then 4 has label 3 and every other label is as
    after the first.  So a record that meets neither condition keeps its
    label.  What [clean_data] goes on to filter are the texts with these
    labels. *)
Theorem clean_data_relabels (x : list string) (y : list Z) :
  length x = length y -> x <> [] ->
  exists y1 y2,
    _change_category x y 5 4
      (np_vectorize (fun t => py_in "verkehrskontroll" (lower t))) = Ok y1 /\
    _change_category x y1 4 3
      (np_vectorize (fun t => py_in "eingebroch" (lower t))) = Ok y2 /\
    length y1 = length y /\ length y2 = length y /\
    (forall i t l, nth_error x i = Some t -> nth_error y i = Some l ->
       exists l1 l2,
         nth_error y1 i = Some l1 /\ nth_error y2 i = Some l2 /\
         (contains lower "verkehrskontroll" t = true -> l = 5%Z -> l1 = 4%Z) /\
         (~ (contains lower "verkehrskontroll" t = true /\ l = 5%Z) ->
            l1 = l) /\
         (contains lower "eingebroch" t = true -> l1 = 4%Z -> l2 = 3%Z) /\
         (~ (contains lower "eingebroch" t = true /\ l1 = 4%Z) -> l2 = l1) /\
         (~ (contains lower "verkehrskontroll" t = true /\ l = 5%Z) ->
          ~ (contains lower "eingebroch" t = true /\ l = 4%Z) -> l2 = l)) /\
    clean_data lower DataPreprocessor x y
    = match filter (fun r => negb (rule_dropped lower r)) (combine x y2) with
      | [] => Raise ValueError
      | kept => Ok (map DataPreprocessor (map fst kept), map snd kept)
      end.
Proof.
  intros Hlen Hx.
  destruct (columns x y Hlen) as [Ex Ey].
  set (l := combine x y) in *.
  assert (Hl : l <> []) by (intros E; rewrite E in Ex; now apply Hx).
  set (l1 := map (rule_verkehrskontroll lower) l).
  set (l2 := map (rule_eingebroch lower) l1).
  assert (H1 : _change_category x y 5 4
                 (np_vectorize (fun t => py_in "verkehrskontroll" (lower t)))
               = Ok (map snd l1)).
  { rewrite Ex, Ey, change_category_records.
    destruct l; [congruence|]. subst l1. now rewrite map_map. }
  assert (H2 : _change_category x (map snd l1) 4 3
                 (np_vectorize (fun t => py_in "eingebroch" (lower t)))
               = Ok (map snd l2)).
  { rewrite Ex, (fst_rule (fun r => snd (rule_verkehrskontroll lower r)) l).
    change (map (fun r => (fst r, snd (rule_verkehrskontroll lower r))) l)
      with l1.
    rewrite change_category_records.
    destruct l1 eqn:E; [destruct l; [congruence|discriminate]|].
    subst l2. now rewrite map_map. }
  assert (Hc2 : combine x (map snd l2) = l2).
  { rewrite Ex at 1.
    rewrite (fst_rule (fun r => snd (rule_verkehrskontroll lower r)) l).
    change (map (fun r => (fst r, snd (rule_verkehrskontroll lower r))) l)
      with l1.
    rewrite (fst_rule (fun r => snd (rule_eingebroch lower r)) l1).
    change (map (fun r => (fst r, snd (rule_eingebroch lower r))) l1)
      with l2.
    apply combine_fst_snd. }
  exists (map snd l1), (map snd l2).
  split; [exact H1|]. split; [exact H2|].
  split; [subst l1; now rewrite !length_map, <- (length_map snd), <- Ey|].
  split; [subst l2 l1; now rewrite !length_map, <- (length_map snd), <- Ey|].
  split.
  - intros i t lab Ht Hlab.
    pose proof (nth_error_combine_Some x y i Ht Hlab) as Hr. fold l in Hr.
    exists (snd (rule_verkehrskontroll lower (t, lab))),
           (snd (rule_eingebroch lower
                   (rule_verkehrskontroll lower (t, lab)))).
    split.
    { unfold l1. rewrite map_map.
      exact (map_nth_error
               (fun r => snd (rule_verkehrskontroll lower r)) _ _ Hr). }
    split.
    { unfold l2, l1. rewrite !map_map.
      exact (map_nth_error
               (fun r => snd (rule_eingebroch lower
                                (rule_verkehrskontroll lower r))) _ _ Hr). }
    unfold rule_eingebroch, rule_verkehrskontroll. cbn [fst snd].
    destruct (contains lower "verkehrskontroll" t),
      (contains lower "eingebroch" t); cbn [andb];
      destruct (Z.eqb_spec lab 5), (Z.eqb_spec lab 4);
      repeat split; intros; cbn [andb] in *;
      try tauto; try lia; try congruence.
  - rewrite Hc2. now apply clean_data_columns.
Qed.

(** C4.  On an aligned dataset [clean_data] returns the two columns of the
    records that survive (the texts preprocessed), or raises [ValueError]
    when none does.  No surviving record has "alkohol" in its lower-cased
    text, whatever its label, and none has "dienstagmorg" or "fahrrad" with
    label 3.  The input record at a position with "alkohol", or with label
    3 and "dienstagmorg" or "fahrrad", is one that the filter drops. *)
Theorem clean_data_drops (x : list string) (y : list Z) :
  length x = length y ->
  let kept := survivors lower (combine x y) in
  clean_data lower DataPreprocessor x y
  = match kept with
    | [] => Raise ValueError
    | _ :: _ => Ok (map DataPreprocessor (map fst kept), map snd kept)
    end /\
  (forall t l, In (t, l) kept ->
     contains lower "alkohol" t = false /\
     ~ (contains lower "dienstagmorg" t = true /\ l = 3%Z) /\
     ~ (contains lower "fahrrad" t = true /\ l = 3%Z)) /\
  (forall i t l, nth_error x i = Some t -> nth_error y i = Some l ->
     contains lower "alkohol" t = true \/
     (l = 3%Z /\ (contains lower "dienstagmorg" t = true \/
                  contains lower "fahrrad" t = true)) ->
     exists l', nth_error (relabelled lower (combine x y)) i = Some (t, l')
                /\ rule_dropped lower (t, l') = true
                /\ ~ In (t, l') kept).
Proof.
  intros Hlen kept. split; [|split].
  - subst kept. rewrite (clean_data_columns x y Hlen).
    now destruct (survivors lower (combine x y)).
  - intros t l Hin. apply filter_In in Hin as [_ Hd].
    apply negb_true_iff in Hd. unfold rule_dropped in Hd. cbn [fst snd] in Hd.
    apply orb_false_iff in Hd as [Hd Hf].
    apply orb_false_iff in Hd as [Ha Hd].
    split; [exact Ha|]. split; intros [Hk ->]; rewrite Hk in *; discriminate.
  - intros i t l Ht Hl Hcase.
    pose proof (nth_error_combine_Some x y i Ht Hl) as Hr.
    exists (snd (rule_eingebroch lower
                   (rule_verkehrskontroll lower (t, l)))).
    assert (Hd : rule_dropped lower
                   (t, snd (rule_eingebroch lower
                              (rule_verkehrskontroll lower (t, l)))) = true).
    { unfold rule_dropped, rule_eingebroch, rule_verkehrskontroll.
      cbn [fst snd].
      destruct Hcase as [Ha|[-> [Hk|Hk]]]; rewrite ?Ha, ?Hk;
        cbn [orb]; trivial;
        destruct (contains lower "verkehrskontroll" t),
          (contains lower "eingebroch" t), (contains lower "alkohol" t),
          (contains lower "dienstagmorg" t), (contains lower "fahrrad" t);
        try discriminate; reflexivity. }
    split; [|split; trivial].
    + unfold relabelled. rewrite map_map.
      exact (map_nth_error
               (fun r => rule_eingebroch lower
                           (rule_verkehrskontroll lower r)) _ _ Hr).
    + intros Hin. apply filter_In in Hin as [_ Hn].
      rewrite Hd in Hn. discriminate.
Qed.

(** ** Idempotence *)

Lemma map_fixed {A : Type} (f : A -> A) (l : list A) :
  (forall a, In a l -> f a = a) -> map f l = l.
Proof.
  intros H. rewrite <- (map_id l) at 2. now apply map_ext_in.
Qed.

Lemma filter_fixed {A : Type} (f : A -> bool) (l : list A) :
  (forall a, In a l -> f a = true) -> filter f l = l.
Proof.
  induction l as [|a l IH]; intros H; simpl; trivial.
  rewrite (H a (or_introl eq_refl)), IH; trivial.
  intros b Hb. apply H. now right.
Qed.

Section Idempotence.

(** What idempotence asks of the preprocessor: it is idempotent itself,
    and it puts no keyword into a text that had none. *)
Hypothesis preprocessor_idempotent :
  forall t, DataPreprocessor (DataPreprocessor t) = DataPreprocessor t.
Hypothesis preprocessor_adds_no_keyword :
  forall kw t, In kw keywords ->
    contains lower kw (DataPreprocessor t) = true ->
    contains lower kw t = true.

(** No rule applies to a cleaned record. *)
Lemma clean_rules_fixed (l : list (string * Z)) (r : string * Z) :
  In r (clean_rules lower DataPreprocessor l) ->
  rule_verkehrskontroll lower r = r /\
  rule_eingebroch lower r = r /\
  rule_dropped lower r = false /\
  (DataPreprocessor (fst r), snd r) = r.
Proof.
  unfold clean_rules, survivors, relabelled. intros Hr.
  apply in_map_iff in Hr as [s [<- Hs]].
  apply filter_In in Hs as [Hs Hd]. apply negb_true_iff in Hd.
  rewrite map_map in Hs. apply in_map_iff in Hs as [[t l0] [<- _]].
  revert Hd.
  unfold rule_eingebroch, rule_verkehrskontroll, rule_dropped.
  cbn [fst snd].
  pose proof (@preprocessor_adds_no_keyword "verkehrskontroll"%string t) as Kv.
  pose proof (@preprocessor_adds_no_keyword "eingebroch"%string t) as Ke.
  pose proof (@preprocessor_adds_no_keyword "alkohol"%string t) as Ka.
  pose proof (@preprocessor_adds_no_keyword "dienstagmorg"%string t) as Kd.
  pose proof (@preprocessor_adds_no_keyword "fahrrad"%string t) as Kf.
  assert (Iv : In "verkehrskontroll"%string keywords) by (cbn; auto 10).
  assert (Ie : In "eingebroch"%string keywords) by (cbn; auto 10).
  assert (Ia : In "alkohol"%string keywords) by (cbn; auto 10).
  assert (Id : In "dienstagmorg"%string keywords) by (cbn; auto 10).
  assert (If : In "fahrrad"%string keywords) by (cbn; auto 10).
  specialize (Kv Iv). specialize (Ke Ie). specialize (Ka Ia).
  specialize (Kd Id). specialize (Kf If).
  rewrite preprocessor_idempotent.
  destruct (contains lower "verkehrskontroll" (DataPreprocessor t)),
    (contains lower "verkehrskontroll" t);
    try (specialize (Kv eq_refl); discriminate Kv); clear Kv;
  destruct (contains lower "eingebroch" (DataPreprocessor t)),
    (contains lower "eingebroch" t);
    try (specialize (Ke eq_refl); discriminate Ke); clear Ke;
  destruct (contains lower "alkohol" (DataPreprocessor t)),
    (contains lower "alkohol" t);
    try (specialize (Ka eq_refl); discriminate Ka); clear Ka;
    cbn [andb orb]; try (intros Hd; discriminate Hd);
  destruct (contains lower "dienstagmorg" (DataPreprocessor t)),
    (contains lower "dienstagmorg" t);
    try (specialize (Kd eq_refl); discriminate Kd); clear Kd;
  destruct (contains lower "fahrrad" (DataPreprocessor t)),
    (contains lower "fahrrad" t);
    try (specialize (Kf eq_refl); discriminate Kf); clear Kf;
  cbn [andb orb];
  destruct (Z.eqb_spec l0 5), (Z.eqb_spec l0 4), (Z.eqb_spec l0 3);
  try lia; subst; cbn; intros Hd; try discriminate Hd; auto;
  repeat match goal with
         | |- context [(?a =? ?b)%Z] => destruct (Z.eqb_spec a b); try lia
         end; auto.
Qed.

Lemma clean_rules_idempotent (l : list (string * Z)) :
  clean_rules lower DataPreprocessor (clean_rules lower DataPreprocessor l)
  = clean_rules lower DataPreprocessor l.
Proof.
  set (k := clean_rules lower DataPreprocessor l).
  assert (Hk : forall r, In r k ->
            rule_verkehrskontroll lower r = r /\
            rule_eingebroch lower r = r /\
            rule_dropped lower r = false /\
            (DataPreprocessor (fst r), snd r) = r)
    by apply clean_rules_fixed.
  clearbody k. unfold clean_rules, survivors, relabelled.
  rewrite (map_fixed (rule_verkehrskontroll lower) k)
    by (intros r Hr; apply (Hk r Hr)).
  rewrite (map_fixed (rule_eingebroch lower) k)
    by (intros r Hr; apply (Hk r Hr)).
  rewrite filter_fixed.
  - apply map_fixed. intros r Hr. apply (Hk r Hr).
  - intros r Hr. destruct (Hk r Hr) as (_ & _ & -> & _). reflexivity.
Qed.

(** C8, as amended.  With a preprocessor that is idempotent and adds no
    keyword to a text, cleaning what [clean_data] returned returns it
    again. *)
Theorem clean_data_idempotent (x x' : list string) (y y' : list Z) :
  length x = length y ->
  clean_data lower DataPreprocessor x y = Ok (x', y') ->
  clean_data lower DataPreprocessor x' y' = Ok (x', y').
Proof.
  intros Hlen Hclean.
  destruct (columns x y Hlen) as [Hx Hy].
  assert (Hrec : clean_data lower DataPreprocessor
                   (map fst (combine x y)) (map snd (combine x y))
                 = Ok (x', y')) by (now rewrite <- Hx, <- Hy).
  clear Hclean. rename Hrec into Hclean.
  rewrite clean_data_records in Hclean.
  destruct (clean_rules lower DataPreprocessor (combine x y))
    as [|r k] eqn:E; [discriminate|].
  injection Hclean as <- <-.
  change (fst r :: map fst k) with (map fst (r :: k)).
  change (snd r :: map snd k) with (map snd (r :: k)).
  rewrite clean_data_records, <- E, clean_rules_idempotent, E.
  reflexivity.
Qed.

End Idempotence.

End Cleaning.

(** ** Balancing *)

Section Balancing.

Variable gen : Type.
Variable shuffle : list nat -> gen -> list nat * gen.

(** What is assumed of [np.random.shuffle]: it permutes the array. *)
Hypothesis shuffle_permutes :
  forall idxs g, Permutation (fst (shuffle idxs g)) idxs.

Lemma compress_all {A : Type} (l : list A) :
  compress (repeat true (length l)) l = l.
Proof. induction l as [|a l IH]; simpl; trivial. now rewrite IH. Qed.

Lemma In_firstn {A : Type} (n : nat) (l : list A) (a : A) :
  In a (firstn n l) -> In a l.
Proof.
  intros H. rewrite <- (firstn_skipn n l). apply in_or_app. now left.
Qed.

Lemma NoDup_firstn_of {A : Type} (n : nat) (l : list A) :
  NoDup l -> NoDup (firstn n l).
Proof.
  intros H. rewrite <- (firstn_skipn n l) in H.
  now apply NoDup_app_remove_r in H.
Qed.

Lemma length_np_where_eq (y : list Z) (i : Z) :
  length (np_where (map (fun l => (l =? i)%Z) y)) = count_occ Z.eq_dec y i.
Proof.
  unfold np_where. rewrite length_where_from.
  induction y as [|v y IH]; simpl; trivial.
  destruct (Z.eqb_spec v i), (Z.eq_dec v i); simpl; congruence.
Qed.

Lemma np_where_eq_points (y : list Z) (i : Z) (j : nat) :
  In j (np_where (map (fun l => (l =? i)%Z) y)) -> nth_error y j = Some i.
Proof.
  intros H. apply In_where_from in H as [_ H]. rewrite Nat.sub_0_r in H.
  rewrite nth_error_map in H.
  destruct (nth_error y j) as [v|]; [|discriminate].
  simpl in H. injection H as H. apply Z.eqb_eq in H. now subst.
Qed.

(** The positions deleted in the round of category [i], from any
    permutation [sh] of the positions that hold [i]. *)
Lemma deleted_positions (y : list Z) (i n_per_class : Z) (sh : list nat) :
  Permutation sh (np_where (map (fun l => (l =? i)%Z) y)) ->
  let del :=
    py_slice sh None (Some (Z.of_nat (length sh) - n_per_class)%Z) in
  NoDup del /\
  (forall j, In j del -> nth_error y j = Some i) /\
  (count_occ Z.eq_dec y i - length del)%nat
  = left_count (count_occ Z.eq_dec y i) n_per_class.
Proof.
  intros Hperm del. subst del. rewrite py_slice_upto.
  assert (Hlen : length sh = count_occ Z.eq_dec y i).
  { rewrite (Permutation_length Hperm). apply length_np_where_eq. }
  split; [|split].
  - apply NoDup_firstn_of.
    apply (Permutation_NoDup (Permutation_sym Hperm)), where_from_NoDup.
  - intros j Hj. apply In_firstn in Hj.
    apply (np_where_eq_points y i).
    now apply (Permutation_in _ Hperm).
  - rewrite length_firstn. unfold left_count. rewrite Hlen. lia.
Qed.

Lemma np_delete_ok {A : Type} (arr : list A) (idxs : list nat) :
  (forall j, In j idxs -> (j < length arr)%nat) ->
  np_delete arr idxs
  = Ok (compress (map (fun j => negb (mem j idxs)) (seq 0 (length arr)))
          arr).
Proof.
  intros H. unfold np_delete. now rewrite (proj2 (in_bounds_spec _ _) H).
Qed.

(** The loop of [balance_data] over distinct categories [cats]: it
    returns, what it returns is what a mask keeps of both arrays, and of
    each category in [cats] it leaves [left_count] examples, of any other
    as many as there were. *)
Lemma balance_loop_spec (n_per_class : Z) (cats : list Z) :
  NoDup cats ->
  forall (x : list string) (y : list Z) (g : gen),
  length x = length y ->
  exists x' y' g' keep,
    balance_loop shuffle cats x y n_per_class g = (Ok (x', y'), g') /\
    length x' = length y' /\
    length keep = length x /\
    x' = compress keep x /\ y' = compress keep y /\
    forall c,
      count_occ Z.eq_dec y' c
      = if in_dec Z.eq_dec c cats
        then left_count (count_occ Z.eq_dec y c) n_per_class
        else count_occ Z.eq_dec y c.
Proof.
  induction cats as [|i cats IH]; intros Hnd x y g Hlen.
  - exists x, y, g, (repeat true (length x)).
    split; [reflexivity|]. split; [exact Hlen|].
    split; [apply repeat_length|].
    split; [now rewrite compress_all|].
    split; [now rewrite Hlen, compress_all|]. reflexivity.
  - inversion Hnd as [|? ? Hi Hnd']; subst.
    cbn [balance_loop]. unfold bindM at 1, np_random_shuffle.
    pose proof (shuffle_permutes
                  (np_where (map (fun l => (l =? i)%Z) y)) g) as Hperm.
    destruct (shuffle (np_where (map (fun l => (l =? i)%Z) y)) g)
      as [sh g1].
    cbn [fst] in Hperm.
    destruct (deleted_positions y i n_per_class Hperm)
      as (Hdel_nd & Hdel_i & Hdel_n).
    set (del := py_slice sh None
                  (Some (Z.of_nat (length sh) - n_per_class)%Z)) in *.
    assert (Hy : forall j, In j del -> (j < length y)%nat).
    { intros j Hj. apply nth_error_Some. rewrite (Hdel_i j Hj).
      discriminate. }
    assert (Hx : forall j, In j del -> (j < length x)%nat)
      by (rewrite Hlen; exact Hy).
    unfold bindM, lift. rewrite (np_delete_ok x del Hx).
    rewrite (np_delete_ok y del Hy).
    set (keep1 := map (fun j => negb (mem j del)) (seq 0 (length x))).
    assert (Ek : map (fun j => negb (mem j del)) (seq 0 (length y)) = keep1)
      by (now rewrite <- Hlen).
    rewrite Ek.
    assert (Hlen1 : length (compress keep1 x) = length (compress keep1 y))
      by now apply length_compress_eq.
    destruct (IH Hnd' (compress keep1 x) (compress keep1 y) g1 Hlen1)
      as (x' & y' & g' & keep2 & Hrun & Hl' & Hk2 & Hx' & Hy' & Hcount).
    exists x', y', g', (compose_mask keep1 keep2).
    split; [exact Hrun|]. split; [exact Hl'|].
    split; [rewrite length_compose_mask; unfold keep1;
            now rewrite length_map, length_seq|].
    split; [now rewrite <- compress_compress|].
    split; [now rewrite <- compress_compress|].
    intros c. rewrite Hcount.
    assert (Hc1 : count_occ Z.eq_dec (compress keep1 y) c
                  = if Z.eq_dec c i
                    then left_count (count_occ Z.eq_dec y i) n_per_class
                    else count_occ Z.eq_dec y c).
    { destruct (np_delete_count y c Hdel_nd Hdel_i) as [y2 [Hy2 Hc2]].
      rewrite (np_delete_ok y del Hy), Ek in Hy2. injection Hy2 as <-.
      rewrite Hc2. destruct (Z.eq_dec c i); [exact Hdel_n|reflexivity]. }
    destruct (in_dec Z.eq_dec c cats) as [Hin|Hout];
      destruct (in_dec Z.eq_dec c (i :: cats)) as [Hin'|Hout'];
      rewrite Hc1; destruct (Z.eq_dec c i) as [->|Hne]; trivial;
      exfalso; cbn [In] in *; intuition congruence.
Qed.

(** [balance_data] on an aligned dataset: it returns, a mask says what
    it keeps of both arrays, and of a category with [n] examples it leaves
    [left_count n n_per_class]. *)
Lemma balance_data_spec (x : list string) (y : list Z) (n_per_class : Z)
  (g : gen) :
  length x = length y ->
  exists x' y' g' keep,
    balance_data shuffle x y n_per_class g = (Ok (x', y'), g') /\
    length x' = length y' /\
    length keep = length x /\
    x' = compress keep x /\ y' = compress keep y /\
    forall c,
      count_occ Z.eq_dec y' c
      = left_count (count_occ Z.eq_dec y c) n_per_class.
Proof.
  intros Hlen. unfold balance_data.
  destruct (balance_loop_spec n_per_class (np_unique_NoDup y) x y g Hlen)
    as (x' & y' & g' & keep & Hrun & Hl & Hk & Hx & Hy & Hcount).
  exists x', y', g', keep. repeat (split; trivial).
  intros c. rewrite Hcount.
  destruct (in_dec Z.eq_dec c (np_unique y)) as [Hin|Hout]; trivial.
  assert (H0 : count_occ Z.eq_dec y c = 0%nat).
  { apply count_occ_not_In. now rewrite <- In_np_unique. }
  rewrite H0. reflexivity.
Qed.

(** What [left_count] is: a category with at least [n_per_class >= 0]
    examples is cut down to [n_per_class]; one with fewer keeps
    [n_per_class - n] of its [n] examples when that is less than [n], and
    all of them otherwise. *)
Lemma left_count_capped (n : nat) (n_per_class : Z) :
  (0 <= n_per_class <= Z.of_nat n)%Z ->
  left_count n n_per_class = Z.to_nat n_per_class.
Proof.
  intros H. unfold left_count.
  destruct (Z.ltb_spec (Z.of_nat n - n_per_class) 0); lia.
Qed.

Lemma left_count_small (n : nat) (n_per_class : Z) :
  (Z.of_nat n < n_per_class)%Z ->
  left_count n n_per_class
  = Nat.min n (Z.to_nat (n_per_class - Z.of_nat n)).
Proof.
  intros H. unfold left_count.
  destruct (Z.ltb_spec (Z.of_nat n - n_per_class) 0); lia.
Qed.

(** The part of C1 on categories with at least [n_per_class] examples:
    [balance_data] leaves exactly [n_per_class] of them. *)
Lemma balance_data_caps (x : list string) (y : list Z) (n_per_class : Z)
  (g : gen) (c : Z) :
  length x = length y ->
  (0 <= n_per_class <= Z.of_nat (count_occ Z.eq_dec y c))%Z ->
  exists x' y' g',
    balance_data shuffle x y n_per_class g = (Ok (x', y'), g') /\
    Z.of_nat (count_occ Z.eq_dec y' c) = n_per_class.
Proof.
  intros Hlen Hk.
  destruct (balance_data_spec x y n_per_class g Hlen)
    as (x' & y' & g' & keep & Hrun & _ & _ & _ & _ & Hcount).
  exists x', y', g'. split; trivial.
  rewrite Hcount, left_count_capped by trivial. lia.
Qed.

(** C1, at a category with fewer examples than [n_per_class]: of three
    examples of one category and [n_per_class = 4], [balance_data] leaves
    one, whatever the shuffle does.  The slice bound [3 - 4] is negative,
    so [idxs[:-1]], two of the three positions, is deleted. *)
Theorem balance_data_small_class (g : gen) :
  exists x' y' g',
    balance_data shuffle ["a"; "b"; "c"]%string [1; 1; 1]%Z 4 g
    = (Ok (x', y'), g') /\
    count_occ Z.eq_dec [1; 1; 1]%Z 1%Z = 3%nat /\
    count_occ Z.eq_dec y' 1%Z = 1%nat.
Proof.
  destruct (balance_data_spec ["a"; "b"; "c"]%string [1; 1; 1]%Z 4 g
              eq_refl)
    as (x' & y' & g' & keep & Hrun & _ & _ & _ & _ & Hcount).
  exists x', y', g'. split; [exact Hrun|]. split; [reflexivity|].
  rewrite Hcount. reflexivity.
Qed.

End Balancing.

(** ** Alignment *)

Section Alignment.

Variable lower : string -> string.
Variable DataPreprocessor : string -> string.
Variable gen : Type.
Variable shuffle : list nat -> gen -> list nat * gen.
Hypothesis shuffle_permutes :
  forall idxs g, Permutation (fst (shuffle idxs g)) idxs.

Lemma filter_compress {A : Type} (f : A -> bool) (l : list A) :
  filter f l = compress (map f l) l.
Proof.
  induction l as [|a l IH]; simpl; trivial. now rewrite IH.
Qed.

Lemma map_fst_relabelled (l : list (string * Z)) :
  map fst (relabelled lower l) = map fst l.
Proof.
  unfold relabelled. rewrite !map_map. now apply map_ext.
Qed.

(** C5.  On sequences of equal length, let [y2] be the labels after the
    two relabelling rules and [keep] the mask that is false where one of the
    three drop rules applies.  Relabelling changes no length; [clean_data]
    returns the preprocessed texts that [keep] keeps together with the
    labels of [y2] that [keep] keeps, so that a text and its label go or
    stay together and the two results have one length; and when [keep]
    keeps nothing (the empty dataset included) there is no result:
    [clean_data] raises [ValueError].  [balance_data] always returns, and
    returns what one mask keeps of both sequences, the mask leaving of
    every category the number of examples that [left_count] gives. *)
Theorem alignment_preserved (x : list string) (y : list Z) :
  length x = length y ->
  let y2 := map snd (relabelled lower (combine x y)) in
  let keep :=
    map (fun r => negb (rule_dropped lower r))
        (relabelled lower (combine x y)) in
  (length y2 = length y /\
   length keep = length x /\
   combine (compress keep x) (compress keep y2)
     = compress keep (combine x y2) /\
   length (map DataPreprocessor (compress keep x))
     = length (compress keep y2) /\
   clean_data lower DataPreprocessor x y
     = match compress keep x with
       | [] => Raise ValueError
       | _ :: _ =>
           Ok (map DataPreprocessor (compress keep x), compress keep y2)
       end /\
   (forall x' y',
      clean_data lower DataPreprocessor x y = Ok (x', y') ->
      length x' = length y')) /\
  (forall n_per_class g,
     exists x' y' g' kept,
       balance_data shuffle x y n_per_class g = (Ok (x', y'), g') /\
       length x' = length y' /\
       length kept = length x /\
       x' = compress kept x /\ y' = compress kept y /\
       forall c,
         count_occ Z.eq_dec y' c
         = left_count (count_occ Z.eq_dec y c) n_per_class).
Proof.
  intros Hlen y2 keep. split.
  - set (rel := relabelled lower (combine x y)) in *.
    assert (Hrel : length rel = length x).
    { unfold rel, relabelled. rewrite !length_map, length_combine. lia. }
    assert (Hfst : map fst rel = x).
    { unfold rel. rewrite map_fst_relabelled.
      now apply map_fst_combine_eq. }
    assert (Hy2 : length y2 = length y)
      by (unfold y2; now rewrite length_map, Hrel).
    assert (Hkeep : length keep = length x)
      by (unfold keep; now rewrite length_map).
    assert (Hboth : length (map DataPreprocessor (compress keep x))
                    = length (compress keep y2)).
    { rewrite length_map. apply length_compress_eq. now rewrite Hy2. }
    assert (Hrun : clean_data lower DataPreprocessor x y
                   = match compress keep x with
                     | [] => Raise ValueError
                     | _ :: _ =>
                         Ok (map DataPreprocessor (compress keep x),
                             compress keep y2)
                     end).
    { rewrite (clean_data_columns lower DataPreprocessor x y Hlen).
      unfold survivors. fold rel.
      assert (Ex : compress keep x = map fst (compress keep rel))
        by (now rewrite <- compress_map, Hfst).
      rewrite Ex. unfold y2. rewrite compress_map. unfold keep.
      rewrite <- filter_compress.
      now destruct (filter (fun r => negb (rule_dropped lower r)) rel). }
    repeat split; trivial.
    + symmetry. apply compress_combine. now rewrite Hy2.
    + intros x' y' Hok. rewrite Hrun in Hok.
      destruct (compress keep x) as [|t k]; [discriminate|].
      injection Hok as <- <-. exact Hboth.
  - intros n_per_class g.
    exact (balance_data_spec shuffle shuffle_permutes x y n_per_class g Hlen).
Qed.

End Alignment.

(** ** Orchestration *)

Section Orchestration.

Variable lower : string -> string.
Variable DataPreprocessor : string -> string.
Variable gen : Type.
Variable shuffle : list nat -> gen -> list nat * gen.
Variables clf_t params pipeline model accuracy matrix : Type.
Variable Model : clf_t -> params -> params -> result model.
Variable get_pipeline : model -> pipeline.
Variable set_pipeline : model -> pipeline -> model.
Variable pipeline_fit : pipeline -> list string -> list Z -> M gen pipeline.
Variable call : model -> list string -> result (list Z).
Variable accuracy_score : list Z -> list Z -> result accuracy.
Variable confusion_matrix : list Z -> list Z -> result matrix.
Variable train_test_split :
  list string -> list Z -> Q ->
  M gen (list string * list string * list Z * list Z).
Variable MODEL_DIR : string.
Variable open_wb : string -> result unit.
Variable dill_pickles : model -> result unit.







Local Abbreviation train :=
  (train_model lower DataPreprocessor shuffle Model get_pipeline
     set_pipeline pipeline_fit call accuracy_score confusion_matrix
     train_test_split).



End Orchestration.

(** ** The theorems at concrete datasets *)

Lemma reversing_shuffle_permutes (idxs : list nat) (g : unit) :
  Permutation (fst (reversing_shuffle idxs g)) idxs.
Proof. apply Permutation_sym, Permutation_rev. Qed.

Lemma clean_data_relabels_witness :
  let x := ["Drogen bei Verkehrskontrolle"; "Eingebrochen"; "Brand"]%string in
  let y := [5; 4; 1]%Z in
  length x = length y /\ x <> [] /\
  exists y1 y2,
    _change_category x y 5 4
      (np_vectorize (fun t => py_in "verkehrskontroll" (ascii_lower t)))
      = Ok y1 /\
    _change_category x y1 4 3
      (np_vectorize (fun t => py_in "eingebroch" (ascii_lower t))) = Ok y2 /\
    length y1 = length y /\ length y2 = length y.
Proof.
  intros x y.
  assert (Hlen : length x = length y) by reflexivity.
  assert (Hx : x <> []) by discriminate.
  split; [exact Hlen|]. split; [exact Hx|].
  destruct (@clean_data_relabels ascii_lower (fun t => t) x y Hlen Hx)
    as (y1 & y2 & H1 & H2 & L1 & L2 & _).
  exists y1, y2. auto.
Defined.

Lemma clean_data_drops_witness :
  let x := ["ALKOHOL am Steuer"; "Unfall mit Fahrrad"; "Brand"]%string in
  let y := [4; 3; 1]%Z in
  length x = length y /\
  clean_data ascii_lower (fun t => t) x y = Ok (["Brand"%string], [1%Z]).
Proof.
  intros x y. split; [reflexivity|].
  exact (proj1 (clean_data_drops ascii_lower (fun t => t) x y eq_refl)).
Defined.

Lemma alignment_preserved_witness :
  let x := ["Dieb ist eingebrochen"; "Alkohol am Steuer";
            "Brand in Halle"; "Brand im Keller"]%string in
  let y := [4; 4; 1; 1]%Z in
  length x = length y /\
  clean_data ascii_lower (fun t => t) x y
  = Ok (["Dieb ist eingebrochen"; "Brand in Halle";
         "Brand im Keller"]%string, [3; 1; 1]%Z) /\
  exists x' y' g' kept,
    balance_data reversing_shuffle x y 1 tt = (Ok (x', y'), g') /\
    length x' = length y' /\
    length kept = length x /\
    x' = compress kept x /\ y' = compress kept y /\
    forall c,
      count_occ Z.eq_dec y' c = left_count (count_occ Z.eq_dec y c) 1.
Proof.
  intros x y. split; [reflexivity|].
  pose proof (@alignment_preserved ascii_lower (fun t => t) unit
                reversing_shuffle reversing_shuffle_permutes x y eq_refl)
    as [(_ & _ & _ & _ & Hclean & _) Hbalance].
  split; [exact Hclean | exact (Hbalance 1%Z tt)].
Defined.

(** With no record at all, and with records that the drop rules all
    remove, the texts and labels are aligned and [clean_data] returns no
    pair: it raises [ValueError]. *)
Lemma clean_data_nothing_left :
  length (@nil string) = length (@nil Z) /\
  clean_data ascii_lower (fun t => t) [] [] = Raise ValueError /\
  length ["Alkohol am Steuer"%string] = length [4%Z] /\
  clean_data ascii_lower (fun t => t) ["Alkohol am Steuer"%string] [4%Z]
  = Raise ValueError.
Proof. repeat split. Qed.

Lemma balance_data_small_class_witness :
  exists x' y' g',
    balance_data reversing_shuffle ["a"; "b"; "c"]%string [1; 1; 1]%Z 4 tt
    = (Ok (x', y'), g') /\
    count_occ Z.eq_dec [1; 1; 1]%Z 1%Z = 3%nat /\
    count_occ Z.eq_dec y' 1%Z = 1%nat.
Proof.
  exact (balance_data_small_class reversing_shuffle
           reversing_shuffle_permutes tt).
Defined.

(** C8 as stated fails for a preprocessor that takes hyphens out: the text
    "Alko-hol am Steuer" survives the first cleaning and comes out as
    "Alkohol am Steuer", which the second cleaning drops. *)
Lemma clean_data_twice_differs :
  clean_data ascii_lower strip_hyphens
    ["Alko-hol am Steuer"; "Brand in Halle"]%string [4; 1]%Z
  = Ok (["Alkohol am Steuer"; "Brand in Halle"]%string, [4; 1]%Z) /\
  clean_data ascii_lower strip_hyphens
    ["Alkohol am Steuer"; "Brand in Halle"]%string [4; 1]%Z
  = Ok (["Brand in Halle"]%string, [1%Z]).
Proof. split; reflexivity. Qed.

Lemma clean_data_idempotent_witness :
  let x := ["Drogen bei Verkehrskontrolle"; "ALKOHOL"; "Brand"]%string in
  let y := [5; 4; 1]%Z in
  let x' := ["Drogen bei Verkehrskontrolle"; "Brand"]%string in
  let y' := [4; 1]%Z in
  length x = length y /\
  clean_data ascii_lower (fun t => t) x y = Ok (x', y') /\
  clean_data ascii_lower (fun t => t) x' y' = Ok (x', y').
Proof.
  intros x y x' y'.
  assert (Hclean : clean_data ascii_lower (fun t => t) x y = Ok (x', y'))
    by reflexivity.
  split; [reflexivity|]. split; [exact Hclean|].
  exact (@clean_data_idempotent ascii_lower (fun t => t)
           (fun t => eq_refl) (fun kw t _ H => H) x x' y y' eq_refl Hclean).
Defined.


End TrainModelSpec.

(* ================================================================== *)
(** * The importer: further properties                                  *)
(* ================================================================== *)

Module ImportDataMore.
Import ImportData PyFacts.

Section Conversion.
Variable utf8_decode : list Byte.byte -> option string.

(** X1.  Converting twice is converting once: what [convert_to_string]
    returns is a value that it returns as it is. *)
Theorem convert_to_string_idempotent (x : value) :
  bind (convert_to_string utf8_decode x) (convert_to_string utf8_decode)
  = convert_to_string utf8_decode x.
Proof.
  unfold convert_to_string.
  destruct x as [b|s|z]; simpl; trivial.
  destruct (utf8_decode b) as [s|] eqn:E; simpl; trivial.
  now rewrite E.
Qed.

End Conversion.

Section Records.
Variable num : Type.
Variable py_int : num -> Z.

Lemma combine_app_l {A B : Type} (X X' : list A) (Y : list B) :
  length X = length Y -> combine (X ++ X') Y = combine X Y.
Proof.
  revert Y; induction X as [|x X IH]; intros [|y Y]; simpl;
    try discriminate.
  - now destruct X'.
  - intros [= H]. now rewrite IH.
Qed.

Lemma combine_app_r {A B : Type} (X : list A) (Y Y' : list B) :
  length X = length Y -> combine X (Y ++ Y') = combine X Y.
Proof.
  revert Y; induction X as [|x X IH]; intros [|y Y]; simpl;
    try discriminate; trivial.
  intros [= H]. now rewrite IH.
Qed.

(** X2.  The records are built over [zip(X, Y)], which stops at the end
    of the shorter array: there are [min(len(X), len(Y))] records, and
    texts without a label, or labels without a text, at the end of an
    array change nothing. *)
Theorem build_documents_zip (current_date : string) (X X' : list value)
  (Y Y' : list num) :
  length (build_documents py_int current_date (X ++ X') (Y ++ Y'))
    = Nat.min (length (X ++ X')) (length (Y ++ Y')) /\
  (length X = length Y ->
   build_documents py_int current_date (X ++ X') Y
     = build_documents py_int current_date X Y /\
   build_documents py_int current_date X (Y ++ Y')
     = build_documents py_int current_date X Y).
Proof.
  unfold build_documents. split.
  - now rewrite length_map, length_combine.
  - intros H. now rewrite combine_app_l, combine_app_r.
Qed.

(** X3.  A run of the importer on aligned arrays hands to the insert
    calls, in order and once each, the records built from the (text, label)
    pairs; every call holds at most 1000 of them, and every record handed
    over has one category and the run's timestamp in both time fields. *)
Theorem import_data_inserts (current_date : string) (X : list value)
  (Y : list num) :
  let calls := insert_calls (import_data py_int current_date X Y) in
  concat calls = build_documents py_int current_date X Y /\
  length (concat calls) = Nat.min (length X) (length Y) /\
  (forall batch, In batch calls ->
     (length batch <= 1000)%nat /\
     forall r, In r batch ->
       length (categories r) = 1%nat /\
       time_created r = current_date /\ time_modified r = current_date).
Proof.
  intros calls. subst calls. unfold import_data.
  set (data := build_documents py_int current_date X Y).
  assert (Hall : concat (insert_calls (import_loop data)) = data).
  { rewrite ImportDataSpec.insert_calls_import_loop, concat_chunks.
    apply firstn_all2.
    pose proof (Nat.div_mod_eq (length data) 1000).
    pose proof (Nat.mod_upper_bound (length data) 1000). lia. }
  split; [exact Hall|]. split.
  - rewrite Hall. unfold data, build_documents.
    now rewrite length_map, length_combine.
  - intros batch Hb. split.
    + rewrite ImportDataSpec.insert_calls_import_loop in Hb.
      apply in_map_iff in Hb as [k [<- _]].
      rewrite length_firstn. lia.
    + intros r Hr.
      assert (Hin : In r data).
      { rewrite <- Hall. apply in_concat. now exists batch. }
      unfold data, build_documents in Hin.
      apply in_map_iff in Hin as [[x y] [<- _]]. now repeat split.
Qed.

End Records.

Lemma build_documents_zip_witness :
  length [Str "Brand"] = length [1%Z] /\
  build_documents (fun z : Z => z) "2020-01-01 10:00:00"
    ([Str "Brand"] ++ [Str "Unfall"]) [1%Z]
  = build_documents (fun z : Z => z) "2020-01-01 10:00:00"
      [Str "Brand"] [1%Z].
Proof.
  split; [reflexivity|].
  apply (build_documents_zip (fun z : Z => z) "2020-01-01 10:00:00"
           [Str "Brand"] [Str "Unfall"] [1%Z] []).
  reflexivity.
Defined.

End ImportDataMore.

(* ================================================================== *)
(** * The training pipeline: the caller's label array                   *)
(* ================================================================== *)

(** [_change_category] assigns into the array it is given and returns that
    same array, so the relabelling of [clean_data] is done in the array of
    the caller; [np.delete] copies, so the deletions are not.  Here the
    content of the caller's array is the state. *)
Module InPlace.
Import TrainModel.

Section InPlace.
Variable lower : string -> string.
Variable DataPreprocessor : string -> string.

(** Lines 17-21 on the caller's array; an exception leaves it as it was
    (the condition is evaluated, and the indices are checked, before
    anything is assigned). *)
Definition _change_category_in_place (x : list string)
  (old_category new_category : Z)
  (condition : list string -> result (list bool)) : M (list Z) unit :=
  fun y =>
    match _change_category x y old_category new_category condition with
    | Ok y' => (Ok tt, y')
    | Raise e => (Raise e, y)
    end.

Definition read_array : M (list Z) (list Z) := fun y => (Ok y, y).

(** Lines 50-83, the state being the array passed as [y]. *)
Definition clean_data_in_place (x : list string)
  : M (list Z) (list string * list Z) :=
  let str_contain :=
    np_vectorize (fun t => py_in "verkehrskontroll" (lower t)) in
  _change_category_in_place x 5 4 str_contain ;;;
  let str_contain := np_vectorize (fun t => py_in "eingebroch" (lower t)) in
  _change_category_in_place x 4 3 str_contain ;;;
  y <~ read_array ;;
  lift (' (x, y) <- _drop_all_containing_keyword lower x y "alkohol" None ;;
        ' (x, y) <- _drop_all_containing_keyword lower x y "dienstagmorg"
                      (Some 3%Z) ;;
        ' (x, y) <- _drop_all_containing_keyword lower x y "fahrrad"
                      (Some 3%Z) ;;
        let preprocessor := np_vectorize DataPreprocessor in
        x <- preprocessor x ;;
        Ok (x, y)).

End InPlace.

(** The files of a world: what is stored at a path. *)
Definition file_at {A : Type} (files : list (string * A)) (path : string)
  : option A :=
  match find (fun f => String.eqb (fst f) path) files with
  | Some f => Some (snd f)
  | None => None
  end.

End InPlace.

(* ================================================================== *)
(** * The training pipeline: further properties                         *)
(* ================================================================== *)

Module TrainModelMore.
Import TrainModel PyFacts InPlace.

(** ** The two helpers of the cleaning *)

Section Helpers.
Variable lower : string -> string.

Lemma length_assign_from {A : Type} (pos : nat) (arr : list A)
  (idxs : list nat) (v : A) :
  length (assign_from pos arr idxs v) = length arr.
Proof.
  revert pos; induction arr as [|a arr IH]; intros pos; simpl; trivial.
  now rewrite IH.
Qed.

Lemma nth_error_assign_from {A : Type} (pos : nat) (arr : list A)
  (idxs : list nat) (v : A) (i : nat) (a : A) :
  nth_error arr i = Some a ->
  nth_error (assign_from pos arr idxs v) i
  = Some (if mem (pos + i) idxs then v else a).
Proof.
  revert pos i; induction arr as [|a0 arr IH]; intros pos [|i]; simpl;
    try discriminate.
  - intros [= ->]. now rewrite Nat.add_0_r.
  - intros H. replace (pos + S i)%nat with (S pos + i)%nat by lia.
    now apply IH.
Qed.

Lemma nth_map_or_false {A : Type} (f : A -> bool) (l : list A) (i : nat) :
  nth i (map f l) false
  = match nth_error l i with Some a => f a | None => false end.
Proof.
  destruct (nth_error l i) as [a|] eqn:E.
  - now apply nth_map_bool.
  - apply nth_overflow. rewrite length_map. now apply nth_error_None.
Qed.

(** X4.  [_change_category] with a vectorised predicate raises
    [ValueError] on an empty text array and otherwise returns, whatever
    the lengths of the two arrays: the labels array keeps its length, and
    the label at a position becomes the new category when the text at that
    position meets the predicate and the label is the old category, and
    stays as it is in every other case, also where there is no text. *)
Theorem change_category_any_lengths (f : string -> bool) (x : list string)
  (y : list Z) (old_category new_category : Z) :
  (x = [] ->
   _change_category x y old_category new_category (np_vectorize f)
   = Raise ValueError) /\
  (x <> [] ->
   exists y',
     _change_category x y old_category new_category (np_vectorize f)
     = Ok y' /\
     length y' = length y /\
     forall i l, nth_error y i = Some l ->
       nth_error y' i
       = Some (if match nth_error x i with
                  | Some t => f t
                  | None => false
                  end && (l =? old_category)%Z
               then new_category else l)).
Proof.
  split; [now intros ->|]. intros Hx.
  destruct x as [|t x]; [congruence|]. clear Hx.
  unfold _change_category. cbn [np_vectorize bind].
  set (idxs := np_intersect1d _ _).
  assert (Hlt : forall j, In j idxs -> (j < length y)%nat).
  { intros j Hj. apply In_np_intersect1d in Hj as [_ Hj].
    now apply np_where_bound in Hj. }
  unfold np_setitem. rewrite (proj2 (in_bounds_spec _ _) Hlt).
  eexists. split; [reflexivity|]. split; [apply length_assign_from|].
  intros i l Hl. rewrite (nth_error_assign_from 0 y idxs _ i Hl).
  cbn [Nat.add]. unfold idxs.
  rewrite mem_np_intersect1d, !mem_np_where, !nth_map_or_false, Hl.
  reflexivity.
Qed.

(** X5.  On aligned arrays [_drop_all_containing_keyword] raises
    [ValueError] when they are empty and otherwise returns, in their order,
    the texts and labels of the records that it does not drop; it drops a
    record when the lower-cased text contains the keyword and, if a
    category is given, the label is that category.  The two arrays it
    returns are aligned, and without a category no text it returns contains
    the keyword. *)
Theorem drop_keyword_filter (x : list string) (y : list Z)
  (keyword : string) (category : option Z) :
  length x = length y ->
  let dropped := fun r : string * Z =>
    py_in keyword (lower (fst r))
    && match category with
       | Some cat => (snd r =? cat)%Z
       | None => true
       end in
  let kept := filter (fun r => negb (dropped r)) (combine x y) in
  _drop_all_containing_keyword lower x y keyword category
  = match x with
    | [] => Raise ValueError
    | _ :: _ => Ok (map fst kept, map snd kept)
    end /\
  length (map fst kept) = length (map snd kept) /\
  (category = None ->
   forall t, In t (map fst kept) -> py_in keyword (lower t) = false).
Proof.
  intros Hlen dropped kept.
  destruct (TrainModelSpec.columns x y Hlen) as [Hx Hy].
  split; [|split].
  - transitivity (_drop_all_containing_keyword lower
                    (map fst (combine x y)) (map snd (combine x y))
                    keyword category);
      [now rewrite <- Hx, <- Hy|].
    rewrite TrainModelSpec.drop_records.
    destruct x as [|t x], y as [|l y]; try discriminate; reflexivity.
  - now rewrite !length_map.
  - intros -> t Ht. apply in_map_iff in Ht as [r [<- Hr]].
    apply filter_In in Hr as [_ Hr]. apply negb_true_iff in Hr.
    unfold dropped in Hr. now rewrite andb_true_r in Hr.
Qed.

End Helpers.

Lemma drop_keyword_filter_witness :
  let x := ["Alkohol am Steuer"; "Brand"]%string in
  let y := [4; 1]%Z in
  length x = length y /\
  _drop_all_containing_keyword ascii_lower x y "alkohol" None
  = Ok (["Brand"%string], [1%Z]).
Proof.
  intros x y. split; [reflexivity|].
  exact (proj1 (drop_keyword_filter ascii_lower x y "alkohol" None
                  eq_refl)).
Defined.

(** ** Cleaning *)

Section Cleaning.
Variable lower : string -> string.
Variable DataPreprocessor : string -> string.

Lemma relabelled_label (l : list (string * Z)) (r : string * Z) :
  In r (relabelled lower l) ->
  exists r0, In r0 l /\ fst r = fst r0 /\
    (snd r = snd r0 \/ snd r = 3%Z \/ snd r = 4%Z).
Proof.
  unfold relabelled. rewrite map_map. intros H.
  apply in_map_iff in H as [r0 [<- H0]]. exists r0.
  split; [exact H0|]. split; [reflexivity|].
  unfold rule_eingebroch, rule_verkehrskontroll. cbn [fst snd].
  destruct (contains lower "verkehrskontroll" (fst r0) && (snd r0 =? 5)%Z);
    [cbn; destruct (contains lower "eingebroch" (fst r0)); cbn; auto|].
  destruct (contains lower "eingebroch" (fst r0) && (snd r0 =? 4)%Z); auto.
Qed.

(** X6.  What [clean_data] returns has no more records than it was given,
    and every label in it is a label of the input or one of the two
    categories the rules assign, 3 and 4.  So labels that all lie in the
    taxonomy 1 to 5 stay in it, and a label outside of it is not taken
    out by the cleaning as such. *)
Theorem clean_data_labels (x x' : list string) (y y' : list Z) :
  length x = length y ->
  clean_data lower DataPreprocessor x y = Ok (x', y') ->
  (length y' <= length y)%nat /\
  (forall l, In l y' -> In l y \/ l = 3%Z \/ l = 4%Z) /\
  ((forall l, In l y -> (1 <= l <= 5)%Z) ->
   forall l, In l y' -> (1 <= l <= 5)%Z).
Proof.
  intros Hlen Hclean.
  rewrite (TrainModelSpec.clean_data_columns lower DataPreprocessor x y Hlen)
    in Hclean.
  assert (Hy' : y' = map snd (survivors lower (combine x y))).
  { destruct (survivors lower (combine x y)); [discriminate|].
    now injection Hclean as _ <-. }
  clear Hclean.
  assert (Hin : forall l, In l y' -> In l y \/ l = 3%Z \/ l = 4%Z).
  { intros l Hl. rewrite Hy' in Hl. apply in_map_iff in Hl as [r [<- Hr]].
    apply filter_In in Hr as [Hr _].
    apply relabelled_label in Hr as (r0 & Hr0 & _ & Hlab).
    destruct r0 as [t0 l0]. apply in_combine_r in Hr0. cbn [snd] in Hlab.
    destruct Hlab as [->|Hlab]; auto. }
  split; [|split; [exact Hin|]].
  - rewrite Hy', length_map. unfold survivors, relabelled.
    etransitivity; [apply filter_length_le|].
    rewrite !length_map, length_combine. lia.
  - intros Htax l Hl. destruct (Hin l Hl) as [H|[->| ->]]; [auto|lia|lia].
Qed.

(** X7.  The relabelling is done in the caller's array.  [clean_data]
    returns what the model without state says; afterwards the array that
    was passed as [y] is as it was if the text array is empty, and
    otherwise, on aligned arrays, holds the relabelled labels of all the
    records, those that were dropped included, and this also when
    [clean_data] raises because no record survives. *)
Theorem clean_data_in_place_effect (x : list string) (y : list Z) :
  fst (clean_data_in_place lower DataPreprocessor x y)
    = clean_data lower DataPreprocessor x y /\
  (x = [] -> snd (clean_data_in_place lower DataPreprocessor x y) = y) /\
  (x <> [] -> length x = length y ->
   snd (clean_data_in_place lower DataPreprocessor x y)
     = map snd (relabelled lower (combine x y)) /\
   length (snd (clean_data_in_place lower DataPreprocessor x y))
     = length y).
Proof.
  split; [|split].
  - unfold clean_data_in_place, clean_data, bindM,
      _change_category_in_place, read_array, lift.
    destruct (_change_category x y 5 4 _) as [y1|e]; cbn [bind fst];
      trivial.
    destruct (_change_category x y1 4 3 _) as [y2|e]; cbn [bind fst];
      trivial.
  - now intros ->.
  - intros Hx Hlen.
    destruct (TrainModelSpec.columns x y Hlen) as [Ex Ey].
    set (l := combine x y) in *.
    set (l1 := map (rule_verkehrskontroll lower) l).
    assert (Hl : l <> []) by (intros E; rewrite E in Ex; now apply Hx).
    assert (H1 : _change_category x y 5 4
                   (np_vectorize
                      (fun t => py_in "verkehrskontroll" (lower t)))
                 = Ok (map snd l1)).
    { rewrite Ex, Ey, TrainModelSpec.change_category_records.
      destruct l; [congruence|]. unfold l1. now rewrite map_map. }
    assert (H2 : _change_category x (map snd l1) 4 3
                   (np_vectorize (fun t => py_in "eingebroch" (lower t)))
                 = Ok (map snd (relabelled lower l))).
    { rewrite Ex.
      rewrite (TrainModelSpec.fst_rule
                 (fun r => snd (rule_verkehrskontroll lower r)) l).
      change (map (fun r => (fst r, snd (rule_verkehrskontroll lower r))) l)
        with l1.
      rewrite TrainModelSpec.change_category_records.
      destruct l1 eqn:E; [destruct l; [congruence|discriminate]|].
      unfold relabelled. rewrite <- E. now rewrite map_map. }
    assert (Hstate : snd (clean_data_in_place lower DataPreprocessor x y)
                     = map snd (relabelled lower l)).
    { unfold clean_data_in_place, bindM, _change_category_in_place,
        read_array, lift.
      rewrite H1, H2. reflexivity. }
    split; [exact Hstate|].
    rewrite Hstate. unfold relabelled.
    now rewrite !length_map, <- (length_map snd), <- Ey.
Qed.

End Cleaning.

Lemma clean_data_labels_witness :
  let x := ["Drogen bei Verkehrskontrolle"; "ALKOHOL"; "Brand"]%string in
  let y := [5; 4; 1]%Z in
  length x = length y /\
  clean_data ascii_lower (fun t => t) x y
    = Ok (["Drogen bei Verkehrskontrolle"; "Brand"]%string, [4; 1]%Z) /\
  forall l, In l [4; 1]%Z -> (1 <= l <= 5)%Z.
Proof.
  intros x y.
  assert (Hclean : clean_data ascii_lower (fun t => t) x y
                   = Ok (["Drogen bei Verkehrskontrolle"; "Brand"]%string,
                         [4; 1]%Z)) by (vm_compute; reflexivity).
  split; [reflexivity|]. split; [exact Hclean|].
  apply (proj2 (proj2 (@clean_data_labels ascii_lower (fun t => t)
                         x _ y _ eq_refl Hclean))).
  intros l Hl. cbn in Hl. lia.
Defined.

Lemma clean_data_in_place_effect_witness :
  let x := ["Drogen bei Verkehrskontrolle"; "ALKOHOL"]%string in
  let y := [5; 4]%Z in
  x <> [] /\ length x = length y /\
  clean_data ascii_lower (fun t => t) x y
    = Ok (["Drogen bei Verkehrskontrolle"%string], [4%Z]) /\
  snd (clean_data_in_place ascii_lower (fun t => t) x y) = [4; 4]%Z.
Proof.
  intros x y.
  assert (Hx : x <> []) by discriminate.
  split; [exact Hx|]. split; [reflexivity|].
  split; [vm_compute; reflexivity|].
  exact (proj1 (proj2 (proj2 (clean_data_in_place_effect ascii_lower
                                (fun t => t) x y)) Hx eq_refl)).
Defined.

(** ** Balancing *)

Section Balancing.
Variable gen : Type.
Variable shuffle : list nat -> gen -> list nat * gen.
Hypothesis shuffle_permutes :
  forall idxs g, Permutation (fst (shuffle idxs g)) idxs.

Lemma compress_same_length {A : Type} (mask : list bool) (l : list A) :
  length (compress mask l) = length l -> compress mask l = l.
Proof.
  revert l; induction mask as [|b mask IH]; intros [|v l]; simpl; trivial;
    try discriminate.
  destruct b; simpl; intros H.
  - f_equal. apply IH. lia.
  - pose proof (length_compress_le mask l). lia.
Qed.

Lemma same_counts_same_length (l l' : list Z) :
  (forall c, count_occ Z.eq_dec l c = count_occ Z.eq_dec l' c) ->
  length l = length l'.
Proof.
  intros H. now apply Permutation_length, (Permutation_count_occ Z.eq_dec).
Qed.

Lemma left_count_le (n : nat) (k : Z) : (left_count n k <= n)%nat.
Proof. unfold left_count. lia. Qed.

Lemma left_count_idempotent (n : nat) (k : Z) :
  left_count (left_count n k) k = left_count n k.
Proof.
  unfold left_count.
  destruct (Z.ltb_spec (Z.of_nat n - k) 0);
    repeat match goal with
           | |- context [(?a <? 0)%Z] => destruct (Z.ltb_spec a 0)
           end; lia.
Qed.

Lemma left_count_large (n : nat) (k : Z) :
  (2 * Z.of_nat n <= k)%Z -> left_count n k = n.
Proof.
  intros H. unfold left_count.
  destruct (Z.ltb_spec (Z.of_nat n - k) 0); lia.
Qed.

Lemma left_count_nonpositive (n : nat) (k : Z) :
  (k <= 0)%Z -> left_count n k = 0%nat.
Proof.
  intros H. unfold left_count.
  destruct (Z.ltb_spec (Z.of_nat n - k) 0); lia.
Qed.

(** When the deletion count of every category is zero, nothing is
    deleted. *)
Lemma balance_data_fixed (x : list string) (y : list Z) (k : Z) (g : gen) :
  length x = length y ->
  (forall c, left_count (count_occ Z.eq_dec y c) k
             = count_occ Z.eq_dec y c) ->
  exists g', balance_data shuffle x y k g = (Ok (x, y), g').
Proof.
  intros Hlen Hfix.
  destruct (TrainModelSpec.balance_data_spec shuffle shuffle_permutes
              x y k g Hlen)
    as (x' & y' & g' & keep & Hrun & Hl & Hk & Hx & Hy & Hcount).
  exists g'. rewrite Hrun.
  assert (Ly : length y' = length y).
  { apply same_counts_same_length. intros c. now rewrite Hcount, Hfix. }
  assert (Ey : y' = y) by (rewrite Hy in *; now apply compress_same_length).
  assert (Ex : x' = x).
  { rewrite Hx in *. apply compress_same_length. congruence. }
  now rewrite Ex, Ey.
Qed.

(** X8.  With a target [n_per_class >= 0], [balance_data] on aligned
    arrays returns, and of every category that has at least [n_per_class]
    examples it leaves exactly [n_per_class]. *)
Theorem balance_data_cuts_to_target (x : list string) (y : list Z)
  (n_per_class : Z) (g : gen) :
  length x = length y -> (0 <= n_per_class)%Z ->
  exists x' y' g',
    balance_data shuffle x y n_per_class g = (Ok (x', y'), g') /\
    forall c, (n_per_class <= Z.of_nat (count_occ Z.eq_dec y c))%Z ->
      Z.of_nat (count_occ Z.eq_dec y' c) = n_per_class.
Proof.
  intros Hlen Hk.
  destruct (TrainModelSpec.balance_data_spec shuffle shuffle_permutes
              x y n_per_class g Hlen)
    as (x' & y' & g' & keep & Hrun & _ & _ & _ & _ & Hcount).
  exists x', y', g'. split; [exact Hrun|].
  intros c Hc. rewrite Hcount, TrainModelSpec.left_count_capped; lia.
Qed.

(** X9.  When [n_per_class] is at least twice the number of examples of
    every category present, [balance_data] returns the arrays it was
    given. *)
Theorem balance_data_large_target (x : list string) (y : list Z)
  (n_per_class : Z) (g : gen) :
  length x = length y ->
  (forall c, In c y ->
     (2 * Z.of_nat (count_occ Z.eq_dec y c) <= n_per_class)%Z) ->
  exists g', balance_data shuffle x y n_per_class g = (Ok (x, y), g').
Proof.
  intros Hlen Hbig. apply balance_data_fixed; trivial.
  intros c. destruct (in_dec Z.eq_dec c y) as [Hin|Hout].
  - apply left_count_large. now apply Hbig.
  - rewrite (proj1 (count_occ_not_In Z.eq_dec y c) Hout). reflexivity.
Qed.

(** X10.  With [n_per_class <= 0] every example is deleted:
    [balance_data] returns two empty arrays. *)
Theorem balance_data_nonpositive_target (x : list string) (y : list Z)
  (n_per_class : Z) (g : gen) :
  length x = length y -> (n_per_class <= 0)%Z ->
  exists g', balance_data shuffle x y n_per_class g = (Ok ([], []), g').
Proof.
  intros Hlen Hk.
  destruct (TrainModelSpec.balance_data_spec shuffle shuffle_permutes
              x y n_per_class g Hlen)
    as (x' & y' & g' & keep & Hrun & Hl & _ & _ & _ & Hcount).
  exists g'. rewrite Hrun.
  assert (Ey : y' = []).
  { apply (count_occ_inv_nil Z.eq_dec). intros c.
    now rewrite Hcount, left_count_nonpositive. }
  rewrite Ey in *. apply length_zero_iff_nil in Hl. now rewrite Hl.
Qed.

(** X11.  Balancing is idempotent: [balance_data] applied, with the same
    [n_per_class], to what it returned returns it unchanged, whatever the
    shuffles do. *)
Theorem balance_data_idempotent (x x' : list string) (y y' : list Z)
  (n_per_class : Z) (g g1 : gen) :
  length x = length y ->
  balance_data shuffle x y n_per_class g = (Ok (x', y'), g1) ->
  exists g2, balance_data shuffle x' y' n_per_class g1 = (Ok (x', y'), g2).
Proof.
  intros Hlen Hrun.
  destruct (TrainModelSpec.balance_data_spec shuffle shuffle_permutes
              x y n_per_class g Hlen)
    as (x1 & y1 & g' & keep & Hrun1 & Hl & _ & _ & _ & Hcount).
  rewrite Hrun in Hrun1. injection Hrun1 as <- <- <-.
  apply balance_data_fixed; trivial.
  intros c. rewrite Hcount. apply left_count_idempotent.
Qed.

(** X12.  [balance_data] only deletes: of no category does it return more
    examples than it was given (no upsampling), it returns no label that
    was not there, and it returns as many texts as labels. *)
Theorem balance_data_only_deletes (x x' : list string) (y y' : list Z)
  (n_per_class : Z) (g g' : gen) :
  length x = length y ->
  balance_data shuffle x y n_per_class g = (Ok (x', y'), g') ->
  (forall c, (count_occ Z.eq_dec y' c <= count_occ Z.eq_dec y c)%nat) /\
  (forall c, In c y' -> In c y) /\
  (length y' <= length y)%nat /\ length x' = length y'.
Proof.
  intros Hlen Hrun.
  destruct (TrainModelSpec.balance_data_spec shuffle shuffle_permutes
              x y n_per_class g Hlen)
    as (x1 & y1 & g1 & keep & Hrun1 & Hl & _ & _ & Hy & Hcount).
  rewrite Hrun in Hrun1. injection Hrun1 as <- <- <-.
  assert (Hle : forall c,
            (count_occ Z.eq_dec y' c <= count_occ Z.eq_dec y c)%nat).
  { intros c. rewrite Hcount. apply left_count_le. }
  split; [exact Hle|]. split; [|split; [|exact Hl]].
  - intros c Hc. apply (count_occ_In Z.eq_dec) in Hc.
    apply (count_occ_In Z.eq_dec). specialize (Hle c). lia.
  - rewrite Hy. apply length_compress_le.
Qed.

(** X18.  With a target [n_per_class >= 0], [balance_data] leaves of no
    category more than [n_per_class] examples. *)
Theorem balance_data_at_most_target (x x' : list string) (y y' : list Z)
  (n_per_class : Z) (g g' : gen) :
  length x = length y -> (0 <= n_per_class)%Z ->
  balance_data shuffle x y n_per_class g = (Ok (x', y'), g') ->
  forall c, (Z.of_nat (count_occ Z.eq_dec y' c) <= n_per_class)%Z.
Proof.
  intros Hlen Hk Hrun c.
  destruct (TrainModelSpec.balance_data_spec shuffle shuffle_permutes
              x y n_per_class g Hlen)
    as (x1 & y1 & g1 & keep & Hrun1 & _ & _ & _ & _ & Hcount).
  rewrite Hrun in Hrun1. injection Hrun1 as <- <- <-.
  rewrite Hcount. unfold left_count.
  destruct (Z.ltb_spec
              (Z.of_nat (count_occ Z.eq_dec y c) - n_per_class) 0); lia.
Qed.

End Balancing.

Lemma balance_data_cuts_to_target_witness :
  let x := ["a"; "b"; "c"; "d"]%string in
  let y := [1; 1; 1; 2]%Z in
  length x = length y /\ (0 <= 2)%Z /\
  exists x' y' g',
    balance_data reversing_shuffle x y 2 tt = (Ok (x', y'), g') /\
    forall c, (2 <= Z.of_nat (count_occ Z.eq_dec y c))%Z ->
      Z.of_nat (count_occ Z.eq_dec y' c) = 2%Z.
Proof.
  intros x y. split; [reflexivity|]. split; [lia|].
  apply (@balance_data_cuts_to_target unit reversing_shuffle
           TrainModelSpec.reversing_shuffle_permutes x y 2%Z tt eq_refl).
  lia.
Defined.

Lemma balance_data_large_target_witness :
  let x := ["a"; "b"; "c"]%string in
  let y := [1; 1; 2]%Z in
  length x = length y /\
  exists g', balance_data reversing_shuffle x y 4 tt = (Ok (x, y), g').
Proof.
  intros x y. split; [reflexivity|].
  apply (@balance_data_large_target unit reversing_shuffle
           TrainModelSpec.reversing_shuffle_permutes x y 4%Z tt eq_refl).
  intros c [<-|[<-|[<-|[]]]]; vm_compute; discriminate.
Defined.

Lemma balance_data_nonpositive_target_witness :
  let x := ["a"; "b"; "c"]%string in
  let y := [1; 1; 2]%Z in
  length x = length y /\ (0 <= 0)%Z /\
  exists g', balance_data reversing_shuffle x y 0 tt = (Ok ([], []), g').
Proof.
  intros x y. split; [reflexivity|]. split; [lia|].
  apply (@balance_data_nonpositive_target unit reversing_shuffle
           TrainModelSpec.reversing_shuffle_permutes x y 0%Z tt eq_refl).
  lia.
Defined.

Lemma balance_data_idempotent_witness :
  let x := ["a"; "b"; "c"; "d"]%string in
  let y := [1; 1; 1; 2]%Z in
  length x = length y /\
  balance_data reversing_shuffle x y 2 tt
    = (Ok (["a"; "b"; "d"]%string, [1; 1; 2]%Z), tt) /\
  exists g2,
    balance_data reversing_shuffle ["a"; "b"; "d"]%string [1; 1; 2]%Z 2 tt
    = (Ok (["a"; "b"; "d"]%string, [1; 1; 2]%Z), g2).
Proof.
  intros x y.
  assert (Hrun : balance_data reversing_shuffle x y 2 tt
                 = (Ok (["a"; "b"; "d"]%string, [1; 1; 2]%Z), tt))
    by (vm_compute; reflexivity).
  split; [reflexivity|]. split; [exact Hrun|].
  exact (@balance_data_idempotent unit reversing_shuffle
           TrainModelSpec.reversing_shuffle_permutes x _ y _ 2%Z tt tt
           eq_refl Hrun).
Defined.

Lemma balance_data_only_deletes_witness :
  let x := ["a"; "b"; "c"; "d"]%string in
  let y := [1; 1; 1; 2]%Z in
  length x = length y /\
  balance_data reversing_shuffle x y 2 tt
    = (Ok (["a"; "b"; "d"]%string, [1; 1; 2]%Z), tt) /\
  forall c, In c [1; 1; 2]%Z -> In c y.
Proof.
  intros x y.
  assert (Hrun : balance_data reversing_shuffle x y 2 tt
                 = (Ok (["a"; "b"; "d"]%string, [1; 1; 2]%Z), tt))
    by (vm_compute; reflexivity).
  split; [reflexivity|]. split; [exact Hrun|].
  exact (proj1 (proj2 (@balance_data_only_deletes unit reversing_shuffle
                         TrainModelSpec.reversing_shuffle_permutes
                         x _ y _ 2%Z tt tt eq_refl Hrun))).
Defined.

Lemma balance_data_at_most_target_witness :
  let x := ["a"; "b"; "c"; "d"]%string in
  let y := [1; 1; 1; 2]%Z in
  length x = length y /\ (0 <= 2)%Z /\
  balance_data reversing_shuffle x y 2 tt
    = (Ok (["a"; "b"; "d"]%string, [1; 1; 2]%Z), tt) /\
  forall c, (Z.of_nat (count_occ Z.eq_dec [1; 1; 2]%Z c) <= 2)%Z.
Proof.
  intros x y.
  assert (Hrun : balance_data reversing_shuffle x y 2 tt
                 = (Ok (["a"; "b"; "d"]%string, [1; 1; 2]%Z), tt))
    by (vm_compute; reflexivity).
  assert (Hk : (0 <= 2)%Z) by lia.
  split; [reflexivity|]. split; [exact Hk|]. split; [exact Hrun|].
  exact (@balance_data_at_most_target unit reversing_shuffle
           TrainModelSpec.reversing_shuffle_permutes x _ y _ 2%Z tt tt
           eq_refl Hk Hrun).
Defined.

(** ** Saving *)

Lemma string_append_inj_l (s a b : string) :
  (s ++ a)%string = (s ++ b)%string -> a = b.
Proof.
  induction s as [|c s IH]; simpl; trivial. intros [= H]. now apply IH.
Qed.

Lemma string_length_append (a b : string) :
  String.length (a ++ b) = (String.length a + String.length b)%nat.
Proof. induction a as [|c a IH]; simpl; trivial. now rewrite IH. Qed.

Lemma string_append_inj_r (s a b : string) :
  (a ++ s)%string = (b ++ s)%string -> a = b.
Proof.
  revert b; induction a as [|c a IH]; intros [|d b] H; trivial.
  - apply (f_equal String.length) in H. simpl in H.
    rewrite string_length_append in H. lia.
  - apply (f_equal String.length) in H. simpl in H.
    rewrite string_length_append in H. lia.
  - simpl in H. injection H as -> H. f_equal. now apply IH.
Qed.

Lemma find_other_path {A : Type} (files : list (string * A))
  (path p : string) :
  p <> path ->
  find (fun f => String.eqb (fst f) p)
       (filter (fun f => negb (String.eqb (fst f) path)) files)
  = find (fun f => String.eqb (fst f) p) files.
Proof.
  intros Hp. induction files as [|[q a] files IH]; simpl; trivial.
  destruct (String.eqb_spec q path) as [->|Hq]; simpl.
  - destruct (String.eqb_spec path p); [congruence|exact IH].
  - destruct (String.eqb_spec q p); [reflexivity|exact IH].
Qed.

Lemma filter_path_gone {A : Type} (files : list (string * A))
  (path : string) :
  filter (fun f => String.eqb (fst f) path)
         (filter (fun f => negb (String.eqb (fst f) path)) files) = [].
Proof.
  induction files as [|[q a] files IH]; simpl; trivial.
  destruct (String.eqb q path) eqn:E; simpl; trivial. now rewrite E.
Qed.

Section Saving.
Variable gen : Type.
Variable model : Type.
Variable MODEL_DIR : string.
Variable open_wb : string -> result unit.
Variable dill_pickles : model -> result unit.

(** The path that [save_model] computes for an id. *)
Definition model_path (model_id : string) : string :=
  os_path_join MODEL_DIR ("model-" ++ model_id ++ ".sav")%string.

Lemma model_path_shape (model_id : string) :
  model_path model_id
  = (MODEL_DIR
     ++ (if (String.length MODEL_DIR =? 0)%nat || ends_with_slash MODEL_DIR
         then "" else "/")
     ++ "model-" ++ model_id ++ ".sav")%string.
Proof.
  unfold model_path, os_path_join. cbn [append].
  now destruct ((String.length MODEL_DIR =? 0)%nat
                || ends_with_slash MODEL_DIR).
Qed.

Lemma model_path_inj (model_id model_id' : string) :
  model_path model_id = model_path model_id' -> model_id = model_id'.
Proof.
  intros H. rewrite !model_path_shape in H.
  apply string_append_inj_l in H. apply string_append_inj_l in H.
  apply (string_append_inj_l "model-") in H.
  now apply string_append_inj_r in H.
Qed.

(** The world after a [save_model] whose file can be opened and whose
    model can be pickled. *)
Lemma save_model_run (m : model) (model_id : string) (w : world gen model) :
  open_wb (model_path model_id) = Ok tt ->
  dill_pickles m = Ok tt ->
  save_model MODEL_DIR open_wb dill_pickles m model_id w
  = (Ok tt,
     {| rng := rng w;
        logged := logged w;
        stdout := stdout w ++ [model_path model_id];
        files := (model_path model_id, Some m)
                 :: filter (fun f =>
                              negb (String.eqb (fst f) (model_path model_id)))
                           (files w) |}).
Proof.
  intros Hopen Hdump. unfold save_model. fold (model_path model_id).
  unfold bindM, print, dill_dump, write_file.
  cbn [rng logged stdout files]. now rewrite Hopen, Hdump.
Qed.

Lemma file_at_written (c : option model) (path : string)
  (fs : list (string * option model)) :
  file_at ((path, c)
           :: filter (fun f => negb (String.eqb (fst f) path)) fs) path
  = Some c.
Proof. unfold file_at. cbn [find fst snd]. now rewrite String.eqb_refl. Qed.

Lemma one_file_written (c : option model) (path : string)
  (fs : list (string * option model)) :
  length (filter (fun f => String.eqb (fst f) path)
            ((path, c)
             :: filter (fun f => negb (String.eqb (fst f) path)) fs))
  = 1%nat.
Proof.
  cbn [filter fst]. rewrite String.eqb_refl. cbn [length].
  now rewrite filter_path_gone.
Qed.

Lemma file_at_kept (c : option model) (path p : string)
  (fs : list (string * option model)) :
  p <> path ->
  file_at ((path, c)
           :: filter (fun f => negb (String.eqb (fst f) path)) fs) p
  = file_at fs p.
Proof.
  intros Hp. unfold file_at. cbn [find fst snd].
  destruct (String.eqb_spec path p) as [E|_]; [now elim Hp|].
  now rewrite find_other_path.
Qed.

(** X13.  The file of a model is [MODEL_DIR], then one "/" unless
    [MODEL_DIR] is empty or ends in one, then "model-<model_id>.sav": the
    directory is never dropped from the path, whatever the id.  Two ids
    have the same path only when they are equal. *)
Theorem save_model_path (model_id : string) :
  model_path model_id
  = (MODEL_DIR
     ++ (if (String.length MODEL_DIR =? 0)%nat || ends_with_slash MODEL_DIR
         then "" else "/")
     ++ "model-" ++ model_id ++ ".sav")%string /\
  (forall model_id', model_path model_id = model_path model_id' ->
     model_id = model_id').
Proof.
  split; [apply model_path_shape|]. intros model_id'. apply model_path_inj.
Qed.

(** X14.  [save_model] prints the path before it opens the file, so the
    path is printed whether or not the model is saved; the log records, the
    random generator and the files at every other path are as before.  It
    returns only when the file was opened and the model pickled, and then
    the model is at its path, in place of whatever was there.  When the
    file cannot be opened, [save_model] raises that exception and every
    file is as before; when the model cannot be pickled, it raises that
    exception and the path holds a file without a model, what was there
    being lost. *)
Theorem save_model_effect (m : model) (model_id : string)
  (w : world gen model) :
  let r := save_model MODEL_DIR open_wb dill_pickles m model_id w in
  stdout (snd r) = stdout w ++ [model_path model_id] /\
  logged (snd r) = logged w /\ rng (snd r) = rng w /\
  (forall p, p <> model_path model_id ->
     file_at (files (snd r)) p = file_at (files w) p) /\
  (fst r = Ok tt <->
   open_wb (model_path model_id) = Ok tt /\ dill_pickles m = Ok tt) /\
  (fst r = Ok tt ->
   file_at (files (snd r)) (model_path model_id) = Some (Some m)) /\
  (forall e, open_wb (model_path model_id) = Raise e ->
     fst r = Raise e /\ files (snd r) = files w) /\
  (forall e, open_wb (model_path model_id) = Ok tt ->
     dill_pickles m = Raise e ->
     fst r = Raise e /\
     file_at (files (snd r)) (model_path model_id) = Some None).
Proof.
  intros r. unfold r, save_model. clear r. fold (model_path model_id).
  set (path := model_path model_id). clearbody path.
  unfold bindM, print, dill_dump, write_file. cbn [rng logged stdout files].
  destruct (open_wb path) as [[]|e1]; [destruct (dill_pickles m) as [[]|e2]|];
    cbn [fst snd rng logged stdout files];
    (split; [reflexivity|]); (split; [reflexivity|]);
    (split; [reflexivity|]);
    (split; [intros p Hp; try reflexivity; now apply file_at_kept|]).
  - split; [now split|]. split; [intros _; apply file_at_written|].
    split; [discriminate|]. discriminate.
  - split; [split; [discriminate|intros [_ H]; discriminate H]|].
    split; [discriminate|]. split; [discriminate|].
    intros e _ [= <-]. split; [reflexivity|apply file_at_written].
  - split; [split; [discriminate|intros [H _]; discriminate H]|].
    split; [discriminate|].
    split; [intros e [= <-]; now split|]. discriminate.
Qed.

(** X15.  Two calls of [save_model] in a row, both files being opened and
    both models pickled without an exception: both paths are printed in
    order; the second model is at its path, which holds one file only; the
    first model is still at its path exactly when the two ids differ. *)
Theorem save_model_twice (m1 m2 : model) (id1 id2 : string)
  (w : world gen model) :
  open_wb (model_path id1) = Ok tt -> dill_pickles m1 = Ok tt ->
  open_wb (model_path id2) = Ok tt -> dill_pickles m2 = Ok tt ->
  let w1 := snd (save_model MODEL_DIR open_wb dill_pickles m1 id1 w) in
  let w2 := snd (save_model MODEL_DIR open_wb dill_pickles m2 id2 w1) in
  fst (save_model MODEL_DIR open_wb dill_pickles m1 id1 w) = Ok tt /\
  fst (save_model MODEL_DIR open_wb dill_pickles m2 id2 w1) = Ok tt /\
  stdout w2 = stdout w ++ [model_path id1; model_path id2] /\
  file_at (files w2) (model_path id2) = Some (Some m2) /\
  length (filter (fun f => String.eqb (fst f) (model_path id2)) (files w2))
    = 1%nat /\
  (id1 <> id2 -> file_at (files w2) (model_path id1) = Some (Some m1)) /\
  (id1 = id2 -> file_at (files w2) (model_path id1) = Some (Some m2)).
Proof.
  intros Ho1 Hd1 Ho2 Hd2 w1 w2. unfold w2, w1. clear w1 w2.
  rewrite (@save_model_run m1 id1 w Ho1 Hd1). cbn [snd fst].
  rewrite (@save_model_run m2 id2 _ Ho2 Hd2).
  cbn [fst snd stdout files logged rng].
  split; [reflexivity|]. split; [reflexivity|].
  split; [|split; [|split; [|split]]].
  - now rewrite <- app_assoc.
  - apply file_at_written.
  - apply one_file_written.
  - intros Hne. rewrite file_at_kept; [apply file_at_written|].
    intros E. apply Hne. now apply model_path_inj.
  - intros ->. apply file_at_written.
Qed.

End Saving.

Lemma save_model_effect_witness :
  let w := {| rng := tt; logged := []; stdout := [];
              files := [("models/model-a.sav"%string,
                         Some [("x"%string, 1%Z)])] |} in
  let open_wb := fun _ : string => @Raise unit OSError in
  let dill_pickles := fun _ : toy_model => @Ok unit tt in
  let r := save_model "missing" open_wb dill_pickles
             [("x"%string, 2%Z)] "a" w in
  fst r = Raise OSError /\
  stdout (snd r) = ["missing/model-a.sav"%string] /\
  files (snd r) = files w.
Proof.
  intros w open_wb dill_pickles r.
  pose proof (@save_model_effect unit toy_model "missing" open_wb
                dill_pickles [("x"%string, 2%Z)] "a" w)
    as (Hout & _ & _ & _ & _ & _ & Hopen & _).
  destruct (Hopen OSError eq_refl) as [Hfst Hfiles].
  split; [exact Hfst|]. split; [exact Hout | exact Hfiles].
Defined.

Lemma save_model_twice_witness :
  let w := {| rng := tt; logged := []; stdout := [];
              files := @nil (string * option toy_model) |} in
  let open_wb := fun _ : string => @Ok unit tt in
  let dill_pickles := fun _ : toy_model => @Ok unit tt in
  "a"%string <> "b"%string /\
  file_at (files (snd (save_model "models" open_wb dill_pickles
                         [("x"%string, 2%Z)] "b"
                         (snd (save_model "models" open_wb dill_pickles
                                 [("x"%string, 1%Z)] "a" w)))))
          "models/model-a.sav"
  = Some (Some [("x"%string, 1%Z)]).
Proof.
  intros w open_wb dill_pickles.
  assert (Hne : "a"%string <> "b"%string) by discriminate.
  split; [exact Hne|].
  exact (proj1 (proj2 (proj2 (proj2 (proj2 (proj2
           (@save_model_twice unit toy_model "models" open_wb dill_pickles
              [("x"%string, 1%Z)] [("x"%string, 2%Z)] "a" "b" w
              eq_refl eq_refl eq_refl eq_refl)))))) Hne).
Defined.

(** ** Failures in the run *)

Section Failures.

Variable lower : string -> string.
Variable DataPreprocessor : string -> string.
Variable gen : Type.
Variable shuffle : list nat -> gen -> list nat * gen.
Variables clf_t params pipeline model accuracy matrix : Type.
Variable Model : clf_t -> params -> params -> result model.
Variable get_pipeline : model -> pipeline.
Variable set_pipeline : model -> pipeline -> model.
Variable pipeline_fit : pipeline -> list string -> list Z -> M gen pipeline.
Variable call : model -> list string -> result (list Z).
Variable accuracy_score : list Z -> list Z -> result accuracy.
Variable confusion_matrix : list Z -> list Z -> result matrix.
Variable train_test_split :
  list string -> list Z -> Q ->
  M gen (list string * list string * list Z * list Z).

Local Abbreviation train :=
  (train_model lower DataPreprocessor shuffle Model get_pipeline
     set_pipeline pipeline_fit call accuracy_score confusion_matrix
     train_test_split).

(** X16.  When no record survives the cleaning, the empty dataset
    included, [train_model] raises [ValueError] after the first two log
    records: nothing is balanced, split or fitted, and the random generator
    is not used. *)
Theorem train_model_nothing_left (x : list string) (y : list Z)
  (clf : clf_t) (clf_params vect_params : params) (test_size : option Q)
  (values_per_category : option Z) (w : world gen model) :
  length x = length y ->
  survivors lower (combine x y) = [] ->
  train x y clf clf_params vect_params test_size values_per_category w
  = (Raise ValueError,
     {| rng := rng w;
        logged := logged w ++
          ["Preprocessing Data..."; "  Cleaning Data"]%string;
        stdout := stdout w;
        files := files w |}).
Proof.
  intros Hlen Hnone.
  assert (Hclean : clean_data lower DataPreprocessor x y = Raise ValueError).
  { rewrite (TrainModelSpec.clean_data_columns lower DataPreprocessor x y
               Hlen).
    now rewrite Hnone. }
  unfold train_model, bindM, logger_info, lift.
  cbn [rng logged stdout files]. rewrite Hclean.
  now rewrite <- app_assoc.
Qed.

(** X17.  When the fit raises, [train_model] raises that exception after
    the log record "Training Model...": there is no "Finished training!",
    no evaluation, and the generator is as the fit left it. *)
Theorem train_model_fit_fails (x : list string) (y : list Z) (clf : clf_t)
  (clf_params vect_params : params) (test_size : option Q)
  (values_per_category : option Z) (w : world gen model)
  (x1 x2 x_train x_test : list string) (y1 y2 y_train y_test : list Z)
  (g1 g2 g3 : gen) (m0 : model) (e : exn) :
  let ts := match test_size with Some t => t | None => (3 # 10)%Q end in
  let k := match values_per_category with Some v => v | None => 900%Z end in
  clean_data lower DataPreprocessor x y = Ok (x1, y1) ->
  balance_data shuffle x1 y1 k (rng w) = (Ok (x2, y2), g1) ->
  train_test_split x2 y2 ts g1
    = (Ok (x_train, x_test, y_train, y_test), g2) ->
  create_model Model clf clf_params vect_params = Ok m0 ->
  pipeline_fit (get_pipeline m0) x_train y_train g2 = (Raise e, g3) ->
  train x y clf clf_params vect_params test_size values_per_category w
  = (Raise e,
     {| rng := g3;
        logged := logged w ++
          ["Preprocessing Data..."; "  Cleaning Data"; "  Balancing Data";
           "  Splitting Data"; "Finished Preprocessing!"; "Created Model";
           "Training Model..."]%string;
        stdout := stdout w;
        files := files w |}).
Proof.
  intros ts k Hclean Hbal Hsplit Hmodel Hfit.
  unfold train_model. unfold ts, k in *. clear ts k.
  unfold bindM, logger_info, lift, with_gen, ret, _train_model.
  cbn [rng logged stdout files]. rewrite Hclean.
  cbn [rng logged stdout files]. rewrite Hbal.
  cbn [rng logged stdout files]. rewrite Hsplit, Hmodel.
  cbn [rng logged stdout files]. unfold bindM. rewrite Hfit.
  now rewrite <- !app_assoc.
Qed.

End Failures.

Lemma train_model_nothing_left_witness :
  let x := ["Alkohol am Steuer"]%string in
  let y := [4%Z] in
  let w := {| rng := tt; logged := []; stdout := [];
              files := @nil (string * option toy_model) |} in
  length x = length y /\
  survivors ascii_lower (combine x y) = [] /\
  train_model ascii_lower (fun t => t) reversing_shuffle toy_Model
    (fun m => m) (fun _ p => p) toy_fit toy_call toy_accuracy_score
    toy_confusion_matrix toy_split x y tt tt tt None None w
  = (Raise ValueError,
     {| rng := tt;
        logged := ["Preprocessing Data..."; "  Cleaning Data"]%string;
        stdout := [];
        files := [] |}).
Proof.
  intros x y w.
  assert (Hnone : survivors ascii_lower (combine x y) = [])
    by (vm_compute; reflexivity).
  split; [reflexivity|]. split; [exact Hnone|].
  exact (@train_model_nothing_left ascii_lower (fun t => t) unit
           reversing_shuffle unit unit toy_model toy_model (nat * nat)%type
           (list (Z * Z)) toy_Model (fun m => m) (fun _ p => p) toy_fit
           toy_call toy_accuracy_score toy_confusion_matrix toy_split
           x y tt tt tt None None w eq_refl Hnone).
Defined.

Lemma train_model_fit_fails_witness :
  let x := ["Brand in Halle"; "Unfall auf der A2"]%string in
  let y := [1; 4]%Z in
  let w := {| rng := tt; logged := []; stdout := [];
              files := @nil (string * option toy_model) |} in
  train_model ascii_lower (fun t => t) reversing_shuffle toy_Model
    (fun m => m) (fun _ p => p)
    (fun (_ : toy_model) (_ : list string) (_ : list Z) (g : unit) =>
       (Raise ValueError, g))
    toy_call toy_accuracy_score toy_confusion_matrix toy_split
    x y tt tt tt None None w
  = (Raise ValueError,
     {| rng := tt;
        logged :=
          ["Preprocessing Data..."; "  Cleaning Data"; "  Balancing Data";
           "  Splitting Data"; "Finished Preprocessing!"; "Created Model";
           "Training Model..."]%string;
        stdout := [];
        files := [] |}).
Proof.
  intros x y w.
  apply (@train_model_fit_fails ascii_lower (fun t => t) unit
           reversing_shuffle unit unit toy_model toy_model (nat * nat)%type
           (list (Z * Z)) toy_Model (fun m => m) (fun _ p => p)
           (fun _ _ _ g => (Raise ValueError, g))
           toy_call toy_accuracy_score toy_confusion_matrix toy_split
           x y tt tt tt None None w
           x x ["Unfall auf der A2"]%string ["Brand in Halle"]%string
           y y [4%Z] [1%Z] tt tt tt [] ValueError);
    vm_compute; reflexivity.
Defined.

End TrainModelMore.
